(** * bulk.Insert: batched inserts under the bind-parameter ceiling

    A shallow embedding of [insert.go] (package [bulk]) and the properties
    of its batch planning, placeholder numbering, statement handling and
    result aggregation.

    Go's [int] is taken at 64 bits; every [int] operation of the source is
    written with its wrap-around ([int_add], [int_sub], [int_mul]) and the
    division is Go's truncating one ([Z.quot]).  Slices are lists, [len] is
    [Z.of_nat (length _)], strings are byte strings. *)

From Stdlib Require Import ZArith String Ascii List Bool Lia Arith.
From Stdlib Require Import DecimalString DecimalZ.
Import ListNotations.

Local Open Scope Z_scope.

(* ================================================================== *)
(** ** Machine integers *)

Module GoInt.

Definition max_int : Z := 9223372036854775807.
Definition min_int : Z := -9223372036854775808.

(** Two's complement reduction of a mathematical integer to an [int]. *)
Definition wrap (z : Z) : Z := (z - min_int) mod 18446744073709551616 + min_int.

Definition int_add (a b : Z) : Z := wrap (a + b).
Definition int_sub (a b : Z) : Z := wrap (a - b).
Definition int_mul (a b : Z) : Z := wrap (a * b).

(** [a / b] on [int]: truncation toward zero.  Every divisor in the source
    is a positive constant or [batches + 1] with [batches > 0]. *)
Definition int_div (a b : Z) : Z := Z.quot a b.

Definition in_int (z : Z) : Prop := min_int <= z <= max_int.

End GoInt.
Import GoInt.

Arguments wrap : simpl never.
Arguments int_add : simpl never.
Arguments int_sub : simpl never.
Arguments int_mul : simpl never.

(** [len x] of a slice. *)
Definition len {A : Type} (l : list A) : Z := Z.of_nat (List.length l).

(* ================================================================== *)
(** ** Batch planning (Exec, lines 43-50 and 75-77) *)

Definition MaxBindVars : Z := 65535.

(** The plan [Exec] works from: either the rows go out in one statement
    (the [else] branch, where no [batchSize] exists), or [batches] regular
    batches of [batchSize] rows are followed by one batch of [leftovers]. *)
Inductive BatchPlan : Type :=
| NoSplit (leftovers : Z)
| Split (batches batchSize leftovers : Z).

(** [for leftovers > batchSize { batches++; leftovers -= batchSize }].
    One unit of fuel pays for one evaluation of the loop condition; [None]
    is: still looping when the fuel ran out. *)
Fixpoint rebalance (fuel : nat) (batchSize batches leftovers : Z)
  : option (Z * Z) :=
  match fuel with
  | O => None
  | S fuel' =>
      if leftovers >? batchSize
      then rebalance fuel' batchSize (int_add batches 1)
                     (int_sub leftovers batchSize)
      else Some (batches, leftovers)
  end.

(** The arithmetic at the head of [Exec], on [columnCount = len(s.Casts)]
    and [rowCount = len(rows)]. *)
Definition plan (fuel : nat) (columnCount rowCount : Z) : option BatchPlan :=
  let batches := int_div (int_mul columnCount rowCount) MaxBindVars in
  if batches >? 0 then
    let batchSize := int_div rowCount (int_add batches 1) in
    let leftovers := int_sub rowCount (int_mul batchSize batches) in
    match rebalance fuel batchSize batches leftovers with
    | Some (batches', leftovers') => Some (Split batches' batchSize leftovers')
    | None => None
    end
  else Some (NoSplit rowCount).

(** Sizes of the planned batches, in execution order. *)
Definition planSizes (p : BatchPlan) : list Z :=
  match p with
  | NoSplit leftovers => [leftovers]
  | Split batches batchSize leftovers =>
      repeat batchSize (Z.to_nat batches) ++ [leftovers]
  end.

Definition sumZ (l : list Z) : Z := fold_right Z.add 0 l.

(* ================================================================== *)
(** ** Slicing *)

(** [rows[lo:hi]]; [None] stands for the run-time panic on indices out of
    range (the bound taken is [len(rows)], the least capacity a slice of
    that length can have). *)
Definition goSlice {A : Type} (rows : list A) (lo hi : Z) : option (list A) :=
  if (0 <=? lo) && (lo <=? hi) && (hi <=? len rows)
  then Some (firstn (Z.to_nat (hi - lo)) (skipn (Z.to_nat lo) rows))
  else None.

(** The row range of regular batch [i]:
    [rows[i*batchSize : i*batchSize+batchSize]] (line 59). *)
Definition regularSlice {A : Type} (rows : list A) (batchSize i : Z)
  : option (list A) :=
  goSlice rows (int_mul i batchSize) (int_add (int_mul i batchSize) batchSize).

(** The row range of the final batch: [rows[len(rows)-leftovers:]]
    (line 85). *)
Definition leftoverSlice {A : Type} (rows : list A) (leftovers : Z)
  : option (list A) :=
  goSlice rows (int_sub (len rows) leftovers) (len rows).

(** The ranges of [for i := 0; i < batches; i++], from index [i] on, with
    [n] iterations left. *)
Fixpoint regularSlices {A : Type} (rows : list A) (batchSize : Z)
  (n : nat) (i : Z) : option (list (list A)) :=
  match n with
  | O => Some []
  | S n' =>
      match regularSlice rows batchSize i with
      | None => None
      | Some b =>
          match regularSlices rows batchSize n' (int_add i 1) with
          | None => None
          | Some bs => Some (b :: bs)
          end
      end
  end.

(** All row ranges a plan makes [Exec] take, in execution order. *)
Definition planSlices {A : Type} (rows : list A) (p : BatchPlan)
  : option (list (list A)) :=
  match p with
  | NoSplit leftovers =>
      match leftoverSlice rows leftovers with
      | Some b => Some [b]
      | None => None
      end
  | Split batches batchSize leftovers =>
      match regularSlices rows batchSize (Z.to_nat batches) 0 with
      | None => None
      | Some bs =>
          match leftoverSlice rows leftovers with
          | Some b => Some (bs ++ [b])
          | None => None
          end
      end
  end.

(* ================================================================== *)
(** ** Strings: [strings.Join], [strings.Replace], [fmt.Sprintf] *)

(** [strings.Join(elems, sep)]. *)
Definition Join (elems : list string) (sep : string) : string :=
  String.concat sep elems.

Fixpoint dropString (n : nat) (s : string) : string :=
  match n, s with
  | O, _ => s
  | S n', String _ s' => dropString n' s'
  | S _, EmptyString => EmptyString
  end.

(** [strings.Replace(s, old, new, 1)]: the first occurrence of [old] in [s]
    is replaced, [s] is returned unchanged when there is none. *)
Fixpoint Replace1 (s old new : string) : string :=
  if String.prefix old s then (new ++ dropString (String.length old) s)%string
  else match s with
       | EmptyString => EmptyString
       | String c s' => String c (Replace1 s' old new)
       end.

(** The [%d] verb of [fmt.Sprintf]: decimal digits, a minus sign for a
    negative number. *)
Definition itoa (n : Z) : string := NilZero.string_of_int (Z.to_int n).

(** [fmt.Sprintf] with the format [$%d] when [cast] is the empty string,
    and with [$%d::%s] otherwise (lines 110-114). *)
Definition placeholder (placeCount : Z) (cast : string) : string :=
  if String.eqb cast EmptyString then ("$" ++ itoa placeCount)%string
  else ("$" ++ itoa placeCount ++ "::" ++ cast)%string.

(** [placeCount := i*len(s.Casts) + j + 1] (line 109). *)
Definition placeCount (columns i j : Z) : Z :=
  int_add (int_add (int_mul i columns) j) 1.

(** [for j, cast := range s.Casts] (lines 108-115): [rest] is what is left
    to range over, [val] the slice appended to. *)
Fixpoint castLoop (columns i j : Z) (rest : list string) (val : list string)
  : list string :=
  match rest with
  | [] => val
  | cast :: rest' =>
      castLoop columns i (int_add j 1) rest'
               (val ++ [placeholder (placeCount columns i j) cast])
  end.

(** [for i := 0; i < count; i++] (lines 106-117), with [n] iterations
    left. *)
Fixpoint rowLoop (casts : list string) (n : nat) (i : Z)
  (values : list string) : list string :=
  match n with
  | O => values
  | S n' =>
      let val := castLoop (len casts) i 0 casts [] in
      rowLoop casts n' (int_add i 1)
              (values ++ [("(" ++ Join val ", " ++ ")")%string])
  end.

Definition newline : string := String (ascii_of_nat 10) EmptyString.

(** *** The numbering the placeholders are compared with *)

(** [n] consecutive numbers from [start] on. *)
Definition numsFrom (start : Z) (n : nat) : list Z :=
  map (fun k => start + Z.of_nat k) (seq 0 n).

(** Row-major numbering of [count] rows of [columns] parameters: row [i],
    column [j] holds [i*columns + j + 1]. *)
Definition rowMajor (columns count : nat) : list (list Z) :=
  map (fun i => numsFrom (Z.of_nat i * Z.of_nat columns + 1) columns)
      (seq 0 count).

(** One parenthesised group: the numbers of a row rendered with the casts
    of their columns. *)
Definition renderRow (casts : list string) (nums : list Z) : string :=
  ("(" ++ Join (map (fun nc => placeholder (fst nc) (snd nc))
                    (combine nums casts)) ", " ++ ")")%string.

(** *** The text a fragment is compared with, and its reading back *)

(** The placeholder of parameter [n] as the spec words it: [$N], followed
    by [::castName] when the cast is not empty; [N] in decimal. *)
Definition specPlaceholder (n : Z) (cast : string) : string :=
  match cast with
  | EmptyString => String "$" (NilZero.string_of_int (Z.to_int n))
  | String _ _ =>
      String "$" (NilZero.string_of_int (Z.to_int n) ++ "::" ++ cast)%string
  end.

(** The group of row [i]: column [j] holds parameter [i*columns + j + 1]
    with the cast of column [j]; the columns are separated by comma and
    space. *)
Definition specGroup (casts : list string) (i : nat) : string :=
  ("(" ++ String.concat ", "
            (map (fun j => specPlaceholder
                             (Z.of_nat i * Z.of_nat (length casts)
                              + Z.of_nat j + 1)
                             (nth j casts EmptyString))
                 (seq 0 (length casts)))
       ++ ")")%string.

(** The fragment of [count] rows: the groups of rows 0 .. count-1,
    separated by comma and newline. *)
Definition specFragment (casts : list string) (count : nat) : string :=
  String.concat (String "," (String (ascii_of_nat 10) EmptyString))
                (map (specGroup casts) (seq 0 count)).

Definition isDigit (c : ascii) : bool :=
  (48 <=? nat_of_ascii c)%nat && (nat_of_ascii c <=? 57)%nat.

Definition isDollar (c : ascii) : bool := Ascii.eqb c "$".

(** The longest run of decimal digits a text starts with. *)
Fixpoint digitsPrefix (s : string) : string :=
  match s with
  | EmptyString => EmptyString
  | String c s' =>
      if isDigit c then String c (digitsPrefix s') else EmptyString
  end.

(** The number written in decimal at the start of a text, if any. *)
Definition readNumber (s : string) : option Z :=
  option_map Z.of_int (NilZero.int_of_string (digitsPrefix s)).

(** The parameter numbers a statement text refers to, in the order of the
    text: the numbers that follow its [$] signs. *)
Fixpoint placeholderNumbers (s : string) : list Z :=
  match s with
  | EmptyString => []
  | String c s' =>
      if isDollar c
      then match readNumber s' with
           | Some n => n :: placeholderNumbers s'
           | None => placeholderNumbers s'
           end
      else placeholderNumbers s'
  end.

Fixpoint hasNoDollar (s : string) : bool :=
  match s with
  | EmptyString => true
  | String c s' => negb (isDollar c) && hasNoDollar s'
  end.

Fixpoint digitsOnly (s : string) : bool :=
  match s with
  | EmptyString => true
  | String c s' => isDigit c && digitsOnly s'
  end.

Definition startsWithDigit (s : string) : bool :=
  match s with
  | EmptyString => false
  | String c _ => isDigit c
  end.

(* ================================================================== *)
(** ** The database collaborator *)

(** What [database/sql] contributes: [Prepare] of [sql.DB], [Exec] and
    [Close] of [sql.Stmt], as functions on the state of the world they act
    on.  The error of [Close] is dropped by [defer]. *)
Class Driver : Type := {
  World : Type;
  Stmt : Type;
  Err : Type;
  Value : Type;
  SqlResult : Type;
  db_prepare : string -> World -> (Stmt + Err) * World;
  stmt_exec : Stmt -> list Value -> World -> (SqlResult + Err) * World;
  stmt_close : Stmt -> World -> World;
  (** what [sql.Result]'s two accessors report *)
  LastInsertId : SqlResult -> Z;
  RowsAffected : SqlResult -> Z
}.

(** Modelled from the spec: the type [result] and its method [add], which
    [insert.go] uses and does not declare: rows-affected accumulates by
    sum, the generated-identifier field is overwritten by the latest
    batch's value. *)
Record result_t : Type := mkResult {
  lastInsertId : Z;
  rowsAffected : Z
}.

Definition result_zero : result_t := mkResult 0 0.

Definition add `{Driver} (r : result_t) (res : SqlResult) : result_t :=
  {| lastInsertId := LastInsertId res;
     rowsAffected := rowsAffected r + RowsAffected res |}.

(* ================================================================== *)
(** ** Insert *)

Section InsertModel.
Context `{D : Driver}.

(** [type Insert struct]; the embedded [*sql.DB] is the [World] the calls
    are threaded through. *)
Record Insert : Type := mkInsert {
  SQL : string;
  Casts : list string;
  stmt : option Stmt;
  bindvars : list Value;
  result : result_t
}.

Definition NewInsert (sql : string) (casts : list string) : Insert :=
  mkInsert sql casts None [] result_zero.

(** [func (s Insert) valuePlaceholders(count int) string]. *)
Definition valuePlaceholders (s : Insert) (count : Z) : string :=
  Join (rowLoop (Casts s) (Z.to_nat count) 0 []) ("," ++ newline).

(** The calls made on the collaborator, in order, with what they
    returned. *)
Inductive Event : Type :=
| EvPrepare (query : string) (r : Stmt + Err)
| EvExec (st : Stmt) (args : list Value) (r : SqlResult + Err)
| EvClose (st : Stmt).

(** The state a call of [Exec] threads: the receiver, the world, and the
    log of collaborator calls. *)
Record St : Type := mkSt {
  ins : Insert;
  world : World;
  trace : list Event
}.

Definition set_stmt (o : option Stmt) (s : Insert) : Insert :=
  mkInsert (SQL s) (Casts s) o (bindvars s) (result s).

Definition set_result (r : result_t) (s : Insert) : Insert :=
  mkInsert (SQL s) (Casts s) (stmt s) (bindvars s) r.

(** [func (s *Insert) prepare(count int) error]; the statement is handed
    back along with being stored in [s.stmt]. *)
Definition prepare (count : Z) (st0 : St) : (Stmt + Err) * St :=
  let query := Replace1 (SQL (ins st0)) "<values>"
                        (valuePlaceholders (ins st0) count) in
  let '(r, w) := db_prepare query (world st0) in
  let o := match r with inl h => Some h | inr _ => None end in
  (r, mkSt (set_stmt o (ins st0)) w (trace st0 ++ [EvPrepare query r])).

(** [s.stmt.Exec(args...)]. *)
Definition stmtExec (h : Stmt) (args : list Value) (st0 : St)
  : (SqlResult + Err) * St :=
  let '(r, w) := stmt_exec h args (world st0) in
  (r, mkSt (ins st0) w (trace st0 ++ [EvExec h args r])).

(** The deferred [s.stmt.Close()]. *)
Definition stmtClose (h : Stmt) (st0 : St) : St :=
  mkSt (ins st0) (stmt_close h (world st0)) (trace st0 ++ [EvClose h]).

(** [s.result.add(res)]. *)
Definition addResult (res : SqlResult) (st0 : St) : St :=
  mkSt (set_result (add (result (ins st0)) res) (ins st0))
       (world st0) (trace st0).

(** The two nested [range] loops that append every value of every row of
    a batch to [args]. *)
Definition flatten (batch : list (list Value)) : list Value :=
  fold_left (fun args row => fold_left (fun args arg => args ++ [arg]) row args)
            batch [].

(** How a block of [Exec] ends. *)
Inductive Ctl : Type :=
| Done
| Failed (e : Err)
| Panic.

(** [for i := 0; i < batches; i++] of the closure (lines 57-69), with [n]
    iterations left, on the statement [h] held in [s.stmt]. *)
Fixpoint regularLoop (n : nat) (i batchSize : Z) (rows : list (list Value))
  (h : Stmt) (st0 : St) : Ctl * St :=
  match n with
  | O => (Done, st0)
  | S n' =>
      match regularSlice rows batchSize i with
      | None => (Panic, st0)
      | Some batch =>
          match stmtExec h (flatten batch) st0 with
          | (inr e, st1) => (Failed e, st1)
          | (inl res, st1) =>
              regularLoop n' (int_add i 1) batchSize rows h (addResult res st1)
          end
      end
  end.

(** The closure of lines 51-71: one [prepare] for all the regular batches,
    its [Close] deferred to the closure's exit, also when it panics. *)
Definition regularPhase (batches batchSize : Z) (rows : list (list Value))
  (st0 : St) : Ctl * St :=
  match prepare batchSize st0 with
  | (inr e, st1) => (Failed e, st1)
  | (inl h, st1) =>
      let '(c, st2) := regularLoop (Z.to_nat batches) 0 batchSize rows h st1 in
      (c, stmtClose h st2)
  end.

(** What a call of [Exec] comes to: the pair it returns, or a panic. *)
Inductive Outcome : Type :=
| Returned (res : result_t) (err : option Err)
| Panicked.

Record Run : Type := mkRun {
  out : Outcome;
  final : St
}.

(** Lines 79-95: the statement for the last batch. *)
Definition finalPhase (leftovers : Z) (rows : list (list Value)) (st0 : St)
  : Run :=
  match prepare leftovers st0 with
  | (inr e, st1) => mkRun (Returned (result (ins st1)) (Some e)) st1
  | (inl h, st1) =>
      match leftoverSlice rows leftovers with
      | None => mkRun Panicked (stmtClose h st1)
      | Some batch =>
          match stmtExec h (flatten batch) st1 with
          | (inr e, st2) =>
              mkRun (Returned (result (ins st2)) (Some e)) (stmtClose h st2)
          | (inl res, st2) =>
              let st3 := addResult res st2 in
              mkRun (Returned (result (ins st3)) None) (stmtClose h st3)
          end
      end
  end.

(** [func (s *Insert) Exec(rows [][]driver.Value) (sql.Result, error)].
    [None]: the rebalancing loop was still running when the fuel ran
    out. *)
Definition Exec (fuel : nat) (s : Insert) (rows : list (list Value))
  (w : World) : option Run :=
  match plan fuel (len (Casts s)) (len rows) with
  | None => None
  | Some (NoSplit leftovers) => Some (finalPhase leftovers rows (mkSt s w []))
  | Some (Split batches batchSize leftovers) =>
      match regularPhase batches batchSize rows (mkSt s w []) with
      | (Failed e, st1) => Some (mkRun (Returned (result (ins st1)) (Some e)) st1)
      | (Panic, st1) => Some (mkRun Panicked st1)
      | (Done, st1) => Some (finalPhase leftovers rows st1)
      end
  end.

(** *** Reading a trace *)

Definition isPrepare (ev : Event) : bool :=
  match ev with EvPrepare _ _ => true | _ => false end.

Definition isExec (ev : Event) : bool :=
  match ev with EvExec _ _ _ => true | _ => false end.

Definition isClose (ev : Event) : bool :=
  match ev with EvClose _ => true | _ => false end.

(** A call that came back with an error. *)
Definition failure (ev : Event) : option Err :=
  match ev with
  | EvPrepare _ (inr e) => Some e
  | EvExec _ _ (inr e) => Some e
  | _ => None
  end.

(** The results of the executions that succeeded, in order. *)
Fixpoint okResults (t : list Event) : list SqlResult :=
  match t with
  | [] => []
  | EvExec _ _ (inl res) :: t' => res :: okResults t'
  | _ :: t' => okResults t'
  end.

(** The argument lists of the executions that succeeded, in order. *)
Fixpoint okArgs (t : list Event) : list (list Value) :=
  match t with
  | [] => []
  | EvExec _ args (inl _) :: t' => args :: okArgs t'
  | _ :: t' => okArgs t'
  end.

Definition countIf (f : Event -> bool) (t : list Event) : nat :=
  List.length (filter f t).

(** The life of one prepared statement: prepared, executed some number of
    times, closed; or not obtained at all. *)
Inductive Scope : list Event -> Prop :=
| scope_refused query e : Scope [EvPrepare query (inr e)]
| scope_held query h uses :
    Forall (fun ev => exists args r, ev = EvExec h args r) uses ->
    Scope (EvPrepare query (inl h) :: uses ++ [EvClose h]).

Definition noFailure (t : list Event) : Prop :=
  Forall (fun ev => failure ev = None) t.

Definition onlyClose (t : list Event) : Prop :=
  Forall (fun ev => isClose ev = true) t.

(** What a stretch [t] of the trace looks like when it runs the batches
    [sl], starting from the aggregate [seed] and ending with the aggregate
    [res] and the error [err]: the executions that succeeded are those of
    a prefix of [sl], in order, and [res] is their aggregate on top of
    [seed]; without an error that prefix is all of [sl], one execution per
    batch; with an error the failing call is the last prepare or execute
    of the stretch, and fewer batches than planned went through. *)
Definition runShape (sl : list (list (list Value))) (seed : result_t)
  (t : list Event) (res : result_t) (err : option Err) : Prop :=
  res = fold_left add (okResults t) seed /\
  okArgs t = map flatten (firstn (length (okResults t)) sl) /\
  match err with
  | None =>
      noFailure t /\ length (okResults t) = length sl /\
      countIf isExec t = length sl
  | Some e =>
      (length (okResults t) < length sl)%nat /\
      (countIf isExec t <= length sl)%nat /\
      exists pre fev post,
        t = pre ++ fev :: post /\ failure fev = Some e /\
        noFailure pre /\ onlyClose post
  end.

(** The stretch of one statement: its life is a [Scope], and it runs the
    batches [sl]. *)
Definition phaseShape (sl : list (list (list Value))) (seed : result_t)
  (seg : list Event) (res : result_t) (err : option Err) : Prop :=
  Scope seg /\ runShape sl seed seg res err.

End InsertModel.

(* ================================================================== *)
(** ** Reading the calls off a trace *)

Section TraceReading.
Context `{D : Driver}.

(** The statement texts handed to [Prepare], in order. *)
Fixpoint preparedQueries (t : list Event) : list string :=
  match t with
  | [] => []
  | EvPrepare query _ :: t' => query :: preparedQueries t'
  | _ :: t' => preparedQueries t'
  end.

(** The argument lists handed to [Exec] of a statement, in order, whether
    the execution succeeded or not. *)
Fixpoint allArgs (t : list Event) : list (list Value) :=
  match t with
  | [] => []
  | EvExec _ args _ :: t' => args :: allArgs t'
  | _ :: t' => allArgs t'
  end.

(** The text [prepare(count)] has prepared (line 100). *)
Definition batchQuery (s : Insert) (count : Z) : string :=
  Replace1 (SQL s) "<values>" (valuePlaceholders s count).

(** The statement texts of a plan: one for the regular batches when there
    are any, one for the last batch. *)
Definition planQueries (s : Insert) (p : BatchPlan) : list string :=
  match p with
  | NoSplit leftovers => [batchQuery s leftovers]
  | Split _ batchSize leftovers =>
      [batchQuery s batchSize; batchQuery s leftovers]
  end.

(** The failing call [fev] is the call of [batch]: the execution on its
    flattened rows, or the prepare of the statement for its number of
    rows. *)
Definition failsOn (s : Insert) (batch : list (list Value)) (fev : Event)
  : Prop :=
  match fev with
  | EvExec _ args (inr _) => args = flatten batch
  | EvPrepare query (inr _) => query = batchQuery s (len batch)
  | _ => False
  end.

(** What [Exec] leaves of the receiver as it found it. *)
Definition sameTemplate (s1 s2 : Insert) : Prop :=
  SQL s1 = SQL s2 /\ Casts s1 = Casts s2 /\ bindvars s1 = bindvars s2.

End TraceReading.

(* ================================================================== *)
(** ** Collaborators to run the model on *)

(** A store that accepts everything: statements are numbered by the call
    that prepared them, an execution reports one row per argument. *)
Definition okDriver : Driver := {|
  World := nat;
  Stmt := nat;
  Err := nat;
  Value := nat;
  SqlResult := Z * Z;
  db_prepare := fun _ w => (inl w, S w);
  stmt_exec := fun _ args w => ((inl (Z.of_nat w, len args)), S w);
  stmt_close := fun _ w => w;
  LastInsertId := fst;
  RowsAffected := snd
|}.

(** The same store, except that its [k]-th prepare-or-execute call
    (counted from 0) fails. *)
Definition failAt (k : nat) : Driver := {|
  World := nat;
  Stmt := nat;
  Err := nat;
  Value := nat;
  SqlResult := Z * Z;
  db_prepare := fun _ w => (if Nat.eqb w k then inr w else inl w, S w);
  stmt_exec := fun _ args w =>
    (if Nat.eqb w k then inr w else inl (Z.of_nat w, len args), S w);
  stmt_close := fun _ w => w;
  LastInsertId := fst;
  RowsAffected := snd
|}.

(** The store of [failAt], with one row reported for every execution
    that succeeds. *)
Definition failAtRowEach (k : nat) : Driver := {|
  World := nat;
  Stmt := nat;
  Err := nat;
  Value := nat;
  SqlResult := Z * Z;
  db_prepare := fun _ w => (if Nat.eqb w k then inr w else inl w, S w);
  stmt_exec := fun _ _ w =>
    (if Nat.eqb w k then inr w else inl (Z.of_nat w, 1), S w);
  stmt_close := fun _ w => w;
  LastInsertId := fst;
  RowsAffected := snd
|}.

(** Three rows of 43690 values. *)
Definition wideRows : list (list nat) :=
  repeat (repeat 7%nat (Z.to_nat 43690)) 3.

(** Inputs the model is run on below. *)
Definition twoWideRows : list (list nat) :=
  repeat (repeat 7%nat (Z.to_nat 65535)) 2.

Definition insertSQL : string := "INSERT INTO t (a) VALUES <values>".

(** 43690 columns without a cast: three rows make 131070 parameters. *)
Definition wideCasts : list string := repeat EmptyString (Z.to_nat 43690).

(** A fresh [Insert] of 43690 columns, for the store that accepts
    everything and for the store whose call [k] fails. *)
Definition wideInsert : Insert (D := okDriver) :=
  NewInsert (D := okDriver) insertSQL wideCasts.

Definition wideInsertAt (k : nat) : Insert (D := failAtRowEach k) :=
  NewInsert (D := failAtRowEach k) insertSQL wideCasts.

Definition threeRows : list (list nat) := [[]; []; []].

Definition twoRows : list (list nat) := [[7]; [8]]%nat.

(** A fresh [Insert] of one column without a cast. *)
Definition oneColumn : Insert (D := okDriver) :=
  NewInsert (D := okDriver) insertSQL [EmptyString].

(** An [Insert] whose template has no marker. *)
Definition markerless : Insert (D := okDriver) :=
  NewInsert (D := okDriver) "SELECT 1" [EmptyString].

(* ================================================================== *)
(** ** Facts about the machine arithmetic *)

Lemma wrap_id (z : Z) : in_int z -> wrap z = z.
Proof.
  unfold in_int, wrap. intros H.
  rewrite Z.mod_small; unfold min_int, max_int in *; lia.
Qed.

Lemma int_add_id a b : in_int (a + b) -> int_add a b = a + b.
Proof. apply wrap_id. Qed.

Lemma int_sub_id a b : in_int (a - b) -> int_sub a b = a - b.
Proof. apply wrap_id. Qed.

Lemma int_mul_id a b : in_int (a * b) -> int_mul a b = a * b.
Proof. apply wrap_id. Qed.

Lemma wrap_range z : in_int (wrap z).
Proof.
  unfold in_int, wrap.
  pose proof (Z.mod_pos_bound (z - min_int) 18446744073709551616 eq_refl) as H.
  revert H. generalize ((z - min_int) mod 18446744073709551616).
  unfold min_int, max_int. intros m H. lia.
Qed.

Lemma len_nonneg {A} (l : list A) : 0 <= len l.
Proof. unfold len. lia. Qed.

Lemma int_range_facts : min_int < 0 /\ 65535 < max_int.
Proof. split; reflexivity. Qed.

(** Conjuncts that hold by reflexivity or by assumption are split off. *)
Ltac conj_easy :=
  repeat (split; [first [reflexivity | assumption]|]).

(** Range side conditions: [max_int] and [min_int] stay folded. *)
Ltac int_bounds :=
  unfold in_int in *; pose proof int_range_facts as [? ?].

(* ================================================================== *)
(** ** The rebalancing loop *)

Section Planning.

(** With [batchSize = 0] and rows left over the loop condition never
    becomes false. *)
Lemma rebalance_stuck fuel batches leftovers :
  0 < leftovers <= max_int -> rebalance fuel 0 batches leftovers = None.
Proof.
  revert batches. induction fuel as [|fuel IH]; intros batches H; cbn [rebalance].
  - reflexivity.
  - destruct (Z.gtb_spec leftovers 0) as [_|Hle]; [|lia].
    rewrite (int_sub_id leftovers 0) by (int_bounds; lia).
    rewrite Z.sub_0_r. now apply IH.
Qed.

(** Leaving the loop is leaving it with [leftovers <= batchSize]. *)
Lemma rebalance_exit fuel batchSize batches leftovers b l :
  rebalance fuel batchSize batches leftovers = Some (b, l) -> l <= batchSize.
Proof.
  revert batches leftovers.
  induction fuel as [|fuel IH]; intros batches leftovers; cbn [rebalance]; [discriminate|].
  destruct (Z.gtb_spec leftovers batchSize) as [Hgt|Hle].
  - apply IH.
  - intros [= <- <-]. exact Hle.
Qed.

(** The loop invariant: the rows are all accounted for, and the last
    batch keeps at least one row of what it started with. *)
Lemma rebalance_inv rowCount fuel batchSize :
  1 <= batchSize -> rowCount <= max_int ->
  forall batches leftovers b l,
    0 <= batches -> 0 <= leftovers ->
    batches * batchSize + leftovers = rowCount ->
    rebalance fuel batchSize batches leftovers = Some (b, l) ->
    b * batchSize + l = rowCount /\ batches <= b /\ 0 <= l /\
    (0 < leftovers -> 0 < l).
Proof.
  intros Hbs Hmax.
  induction fuel as [|fuel IH]; intros batches leftovers b l Hb Hl Hsum;
    cbn [rebalance]; [discriminate|].
  destruct (Z.gtb_spec leftovers batchSize) as [Hgt|Hle].
  - assert (batches < rowCount) by nia.
    rewrite (int_add_id batches 1) by (int_bounds; lia).
    rewrite (int_sub_id leftovers batchSize) by (int_bounds; lia).
    intros Hr. apply IH in Hr; try lia.
  - intros [= <- <-]. repeat split; lia.
Qed.

Lemma rebalance_terminates batchSize :
  1 <= batchSize ->
  forall fuel batches leftovers,
    0 <= leftovers <= max_int ->
    (Z.to_nat leftovers < fuel)%nat ->
    exists b l, rebalance fuel batchSize batches leftovers = Some (b, l).
Proof.
  intros Hbs.
  induction fuel as [|fuel IH]; intros batches leftovers Hl Hfuel; [lia|].
  cbn [rebalance]. destruct (Z.gtb_spec leftovers batchSize) as [Hgt|Hle].
  - rewrite (int_sub_id leftovers batchSize) by (int_bounds; lia).
    apply IH; lia.
  - eauto.
Qed.

(** What the first three assignments compute when the [if] is taken. *)
Lemma plan_head columnCount rowCount :
  0 <= rowCount <= max_int ->
  let batches := int_div (int_mul columnCount rowCount) MaxBindVars in
  let batchSize := int_div rowCount (int_add batches 1) in
  0 < batches ->
  batches <= max_int - 1 /\
  int_add batches 1 = batches + 1 /\
  batchSize = rowCount / (batches + 1) /\
  0 <= batchSize /\
  0 <= batchSize * batches /\
  batchSize <= rowCount - batchSize * batches /\
  int_sub rowCount (int_mul batchSize batches) = rowCount - batchSize * batches.
Proof.
  intros HR batches batchSize Hb.
  assert (Hb1 : batches <= max_int - 1).
  { subst batches. unfold int_div, int_mul.
    destruct (wrap_range (columnCount * rowCount)) as [_ Hw].
    revert Hw. generalize (wrap (columnCount * rowCount)). intros w Hw.
    transitivity (Z.quot max_int MaxBindVars).
    - apply Z.quot_le_mono; [reflexivity | exact Hw].
    - vm_compute. discriminate. }
  assert (Hadd : int_add batches 1 = batches + 1)
    by (apply int_add_id; int_bounds; lia).
  assert (Hbs : batchSize = rowCount / (batches + 1)).
  { subst batchSize. unfold int_div. rewrite Hadd.
    apply Z.quot_div_nonneg; lia. }
  assert (Hbs0 : 0 <= batchSize)
    by (rewrite Hbs; apply Z.div_pos; lia).
  assert (Hmul : batchSize * (batches + 1) <= rowCount).
  { rewrite Hbs, Z.mul_comm. apply Z.mul_div_le. lia. }
  assert (Hprod : 0 <= batchSize * batches <= rowCount).
  { split; [apply Z.mul_nonneg_nonneg; lia|].
    rewrite Z.mul_add_distr_l, Z.mul_1_r in Hmul. lia. }
  repeat split; try assumption; try lia.
  rewrite (int_mul_id batchSize batches) by (int_bounds; lia).
  apply int_sub_id. int_bounds. lia.
Qed.

(** The invariant of every plan in which the rows are split. *)
Lemma plan_split_inv fuel columnCount rowCount batches batchSize leftovers :
  0 <= rowCount <= max_int ->
  plan fuel columnCount rowCount = Some (Split batches batchSize leftovers) ->
  0 < batches <= max_int /\ 0 <= batchSize /\
  0 <= leftovers <= batchSize /\
  batches * batchSize + leftovers = rowCount /\
  (1 <= batchSize -> 1 <= leftovers).
Proof.
  intros HR. unfold plan.
  set (b0 := int_div (int_mul columnCount rowCount) MaxBindVars).
  destruct (Z.gtb_spec b0 0) as [Hb0|Hb0]; [|discriminate].
  destruct (plan_head columnCount rowCount HR Hb0)
    as (Hmax & Hadd & Hbs & Hbs0 & Hprod & Hleft & Hsub).
  fold b0 in Hmax, Hadd, Hbs, Hprod, Hleft, Hsub, Hbs0 |- *.
  set (bs := int_div rowCount (int_add b0 1)) in *.
  rewrite Hsub.
  destruct (rebalance fuel bs b0 (rowCount - bs * b0)) as [[b l]|] eqn:Hr;
    [|discriminate].
  intros [= <- <- <-].
  pose proof (rebalance_exit _ _ _ _ _ _ Hr) as Hexit.
  destruct (Z.eq_dec bs 0) as [Hz|Hnz].
  - rewrite Hz in Hr, Hexit |- *. rewrite Z.mul_0_l, Z.sub_0_r in Hr.
    destruct (Z.eq_dec rowCount 0) as [HR0|HR0].
    + rewrite HR0 in Hr |- *. destruct fuel; [discriminate|].
      injection Hr as <- <-. int_bounds. lia.
    + rewrite rebalance_stuck in Hr by lia. discriminate.
  - assert (Hsum0 : b0 * bs + (rowCount - bs * b0) = rowCount) by lia.
    destruct (rebalance_inv rowCount fuel bs ltac:(lia) ltac:(lia)
                b0 (rowCount - bs * b0) b l ltac:(lia) ltac:(lia) Hsum0 Hr)
      as (Hsum & Hle & Hl0 & Hpos).
    assert (Hbb : 0 <= (b - 1) * (bs - 1))
      by (apply Z.mul_nonneg_nonneg; lia).
    assert (b <= rowCount) by lia.
    repeat split; try lia.
Qed.

Lemma plan_nosplit_inv fuel columnCount rowCount leftovers :
  plan fuel columnCount rowCount = Some (NoSplit leftovers) ->
  leftovers = rowCount /\
  int_div (int_mul columnCount rowCount) MaxBindVars <= 0.
Proof.
  unfold plan.
  destruct (Z.gtb_spec (int_div (int_mul columnCount rowCount) MaxBindVars) 0).
  - destruct (rebalance _ _ _ _) as [[? ?]|]; discriminate.
  - intros [= <-]. split; [reflexivity | assumption].
Qed.

End Planning.

(* ================================================================== *)
(** ** Row ranges *)

Section Slices.
Context {A : Type}.
Implicit Types rows : list A.

Lemma goSlice_ok rows lo hi :
  0 <= lo -> lo <= hi -> hi <= len rows ->
  goSlice rows lo hi =
  Some (firstn (Z.to_nat (hi - lo)) (skipn (Z.to_nat lo) rows)).
Proof.
  intros H1 H2 H3. unfold goSlice.
  apply Z.leb_le in H1, H2, H3. now rewrite H1, H2, H3.
Qed.

Lemma len_firstn_skipn rows lo n :
  0 <= lo -> 0 <= n -> lo + n <= len rows ->
  len (firstn (Z.to_nat n) (skipn (Z.to_nat lo) rows)) = n.
Proof.
  unfold len. intros H1 H2 H3.
  rewrite length_firstn, length_skipn. lia.
Qed.

(** The regular ranges tile the rows from [i*batchSize] on. *)
Lemma regularSlices_spec rows batchSize :
  0 <= batchSize -> len rows <= max_int ->
  forall n i,
    0 <= i ->
    i + Z.of_nat n <= max_int ->
    (i + Z.of_nat n) * batchSize <= len rows ->
    exists sl,
      regularSlices rows batchSize n i = Some sl /\
      List.length sl = n /\
      Forall (fun b => len b = batchSize) sl /\
      skipn (Z.to_nat (i * batchSize)) rows =
      concat sl ++ skipn (Z.to_nat ((i + Z.of_nat n) * batchSize)) rows.
Proof.
  intros Hbs Hmax. induction n as [|n IH]; intros i Hi Hin Hlen.
  - exists []. cbn [regularSlices concat app List.length].
    repeat split; [constructor|]. now rewrite Z.add_0_r.
  - assert (Hx : 0 <= i * batchSize) by (apply Z.mul_nonneg_nonneg; lia).
    assert (Hy : 0 <= Z.of_nat n * batchSize)
      by (apply Z.mul_nonneg_nonneg; lia).
    assert (Hexp : (i + Z.of_nat (S n)) * batchSize =
                   i * batchSize + batchSize + Z.of_nat n * batchSize) by lia.
    assert (Hexp' : (i + 1 + Z.of_nat n) * batchSize =
                    i * batchSize + batchSize + Z.of_nat n * batchSize) by lia.
    cbn [regularSlices]. unfold regularSlice.
    rewrite (int_mul_id i batchSize) by (int_bounds; lia).
    rewrite (int_add_id (i * batchSize) batchSize) by (int_bounds; lia).
    rewrite (int_add_id i 1) by (int_bounds; lia).
    rewrite goSlice_ok by lia.
    destruct (IH (i + 1)) as (sl & Hsl & Hn & Hall & Hcat); try lia.
    rewrite Hsl. eexists. split; [reflexivity|].
    replace (i * batchSize + batchSize - i * batchSize) with batchSize by lia.
    split; [cbn; now rewrite Hn|]. split.
    + constructor; [|exact Hall]. apply len_firstn_skipn; lia.
    + cbn [concat]. rewrite <- app_assoc.
      replace ((i + Z.of_nat (S n)) * batchSize)
        with ((i + 1 + Z.of_nat n) * batchSize) by lia.
      rewrite <- Hcat.
      replace ((i + 1) * batchSize) with (i * batchSize + batchSize) by lia.
      rewrite Z2Nat.inj_add by lia.
      rewrite Nat.add_comm, <- skipn_skipn.
      symmetry. apply firstn_skipn.
Qed.

Lemma leftoverSlice_spec rows leftovers :
  0 <= leftovers <= len rows -> len rows <= max_int ->
  leftoverSlice rows leftovers =
  Some (skipn (Z.to_nat (len rows - leftovers)) rows).
Proof.
  intros Hl Hmax. unfold leftoverSlice.
  rewrite (int_sub_id (len rows) leftovers) by (int_bounds; lia).
  rewrite goSlice_ok by lia. f_equal.
  apply firstn_all2. rewrite length_skipn. unfold len in *. lia.
Qed.

Lemma map_len_repeat (sl : list (list A)) n :
  Forall (fun b => len b = n) sl ->
  map len sl = repeat n (List.length sl).
Proof.
  induction 1 as [|b sl Hb _ IH]; cbn; [reflexivity|]. now rewrite Hb, IH.
Qed.

Lemma sumZ_app l1 l2 : sumZ (l1 ++ l2) = sumZ l1 + sumZ l2.
Proof.
  unfold sumZ. induction l1 as [|x l1 IH]; cbn; [reflexivity|].
  rewrite IH. lia.
Qed.

Lemma sumZ_repeat x n : sumZ (repeat x n) = Z.of_nat n * x.
Proof.
  unfold sumZ. induction n as [|n IH]; [reflexivity|].
  cbn [repeat fold_right]. rewrite IH. lia.
Qed.

(** Every plan's ranges exist, have the planned sizes and tile the rows. *)
Lemma planSlices_spec rows fuel columnCount p :
  len rows <= max_int ->
  plan fuel columnCount (len rows) = Some p ->
  exists sl,
    planSlices rows p = Some sl /\
    concat sl = rows /\
    map len sl = planSizes p /\
    sumZ (planSizes p) = len rows.
Proof.
  intros Hmax Hp. pose proof (len_nonneg rows) as H0.
  destruct p as [l | b bs l].
  - apply plan_nosplit_inv in Hp as [-> _].
    cbn [planSlices planSizes]. rewrite leftoverSlice_spec by lia.
    rewrite Z.sub_diag. cbn [Z.to_nat skipn].
    eexists. split; [reflexivity|]. cbn. rewrite app_nil_r.
    repeat split; lia.
  - apply plan_split_inv in Hp as (Hb & Hbs & Hl & Hsum & _); [|lia].
    cbn [planSlices planSizes].
    assert (Hbn : Z.of_nat (Z.to_nat b) = b) by (apply Z2Nat.id; lia).
    destruct (regularSlices_spec rows bs Hbs Hmax (Z.to_nat b) 0)
      as (sl & Hsl & Hn & Hall & Hcat); try lia.
    rewrite Hsl, leftoverSlice_spec by lia.
    eexists. split; [reflexivity|].
    cbn [Z.add Z.mul] in Hcat. rewrite Hbn in Hcat.
    cbn [Z.to_nat skipn] in Hcat.
    replace (len rows - l) with (b * bs) by lia.
    split; [|split].
    + rewrite concat_app. cbn [concat]. rewrite app_nil_r. now symmetry.
    + rewrite map_app, (map_len_repeat _ _ Hall), Hn. cbn [map].
      f_equal. f_equal. unfold len in *. rewrite length_skipn. lia.
    + rewrite sumZ_app, sumZ_repeat, Hbn. cbn. lia.
Qed.

End Slices.

(* ================================================================== *)
(** ** Placeholder numbering *)

Section Placeholders.

Lemma numsFrom_S start n :
  numsFrom start (S n) = start :: numsFrom (start + 1) n.
Proof.
  unfold numsFrom. cbn [seq map]. rewrite Z.add_0_r. f_equal.
  rewrite <- seq_shift, map_map. apply map_ext. intros k. lia.
Qed.

Lemma numsFrom_app start m n :
  numsFrom start (m + n) = numsFrom start m ++ numsFrom (start + Z.of_nat m) n.
Proof.
  revert start. induction m as [|m IH]; intros start.
  - cbn [Nat.add numsFrom seq map app]. now rewrite Z.add_0_r.
  - cbn [Nat.add]. rewrite !numsFrom_S, IH. cbn [app]. do 3 f_equal. lia.
Qed.

Lemma numsFrom_length start n : length (numsFrom start n) = n.
Proof. unfold numsFrom. now rewrite length_map, length_seq. Qed.

Lemma numsFrom_nth start n k :
  (k < n)%nat -> nth k (numsFrom start n) 0 = start + Z.of_nat k.
Proof.
  revert start k. induction n as [|n IH]; intros start k Hk; [lia|].
  rewrite numsFrom_S. destruct k as [|k]; cbn [nth]; [lia|].
  rewrite IH by lia. lia.
Qed.

(** The inner loop numbers the columns of row [i] consecutively. *)
Lemma castLoop_spec columns i :
  0 <= i * columns ->
  forall rest j val,
    0 <= j -> i * columns + j + len rest <= max_int ->
    castLoop columns i j rest val =
    val ++ map (fun nc => placeholder (fst nc) (snd nc))
               (combine (numsFrom (i * columns + j + 1) (length rest)) rest).
Proof.
  intros Hi. induction rest as [|cast rest IH]; intros j val Hj Hmax.
  - cbn. now rewrite app_nil_r.
  - unfold len in Hmax. cbn [length] in Hmax.
    cbn [castLoop length]. rewrite numsFrom_S. cbn [combine map fst snd].
    unfold placeCount.
    rewrite (int_mul_id i columns) by (int_bounds; lia).
    rewrite (int_add_id (i * columns) j) by (int_bounds; lia).
    rewrite (int_add_id (i * columns + j) 1) by (int_bounds; lia).
    rewrite (int_add_id j 1) by (int_bounds; lia).
    rewrite IH by (unfold len; lia).
    rewrite <- app_assoc. cbn [app].
    replace (i * columns + (j + 1) + 1) with (i * columns + j + 1 + 1) by lia.
    reflexivity.
Qed.

(** The outer loop appends one rendered group per row. *)
Lemma rowLoop_spec casts :
  1 <= len casts ->
  forall n i values,
    0 <= i -> (i + Z.of_nat n) * len casts <= max_int ->
    rowLoop casts n i values =
    values ++
    map (fun k => renderRow casts
                    (numsFrom ((i + Z.of_nat k) * len casts + 1) (length casts)))
        (seq 0 n).
Proof.
  intros HC. induction n as [|n IH]; intros i values Hi Hmax.
  - cbn. now rewrite app_nil_r.
  - assert (Hx : 0 <= i * len casts) by (apply Z.mul_nonneg_nonneg; lia).
    assert (Hy : 0 <= Z.of_nat n * len casts)
      by (apply Z.mul_nonneg_nonneg; lia).
    assert (Hexp : (i + Z.of_nat (S n)) * len casts =
                   i * len casts + len casts + Z.of_nat n * len casts) by lia.
    assert (Hi1 : i + 1 <= i * len casts + len casts).
    { assert (0 <= i * (len casts - 1)) by (apply Z.mul_nonneg_nonneg; lia).
      lia. }
    cbn [rowLoop].
    rewrite castLoop_spec by lia.
    rewrite (int_add_id i 1) by (int_bounds; lia).
    rewrite IH by lia.
    rewrite <- app_assoc. f_equal. cbn [seq map app].
    rewrite <- seq_shift, map_map. f_equal.
    + unfold renderRow. now rewrite !Z.add_0_r.
    + apply map_ext. intros k. do 2 f_equal. lia.
Qed.

Lemma concat_rowMajor columns count :
  concat (rowMajor columns count) = numsFrom 1 (count * columns).
Proof.
  unfold rowMajor. induction count as [|count IH].
  - reflexivity.
  - rewrite seq_S, map_app, concat_app, IH. cbn [Nat.add map concat].
    rewrite app_nil_r.
    replace (S count * columns)%nat with (count * columns + columns)%nat by lia.
    rewrite numsFrom_app. do 2 f_equal. lia.
Qed.

End Placeholders.

(* ================================================================== *)
(** ** Traces of [Exec] *)

Section ExecFacts.
Context `{D : Driver}.

Lemma okResults_app t1 t2 : okResults (t1 ++ t2) = okResults t1 ++ okResults t2.
Proof.
  induction t1 as [|[q r|h args [res|e]|h] t1 IH]; cbn; rewrite ?IH; reflexivity.
Qed.

Lemma okArgs_app t1 t2 : okArgs (t1 ++ t2) = okArgs t1 ++ okArgs t2.
Proof.
  induction t1 as [|[q r|h args [res|e]|h] t1 IH]; cbn; rewrite ?IH; reflexivity.
Qed.

Lemma okArgs_length t : length (okArgs t) = length (okResults t).
Proof.
  induction t as [|[q r|h args [res|e]|h] t IH]; cbn; rewrite ?IH; reflexivity.
Qed.

Lemma countIf_app f t1 t2 : countIf f (t1 ++ t2) = (countIf f t1 + countIf f t2)%nat.
Proof. unfold countIf. now rewrite filter_app, length_app. Qed.

Lemma regularSlices_length {A} (rows : list A) batchSize n :
  forall i sl, regularSlices rows batchSize n i = Some sl -> length sl = n.
Proof.
  induction n as [|n IH]; intros i sl; cbn [regularSlices].
  - now intros [= <-].
  - destruct (regularSlice rows batchSize i); [|discriminate].
    destruct (regularSlices rows batchSize n (int_add i 1)) eqn:E; [|discriminate].
    intros [= <-]. cbn. f_equal. eapply IH, E.
Qed.

(** The executions of the loop over the regular batches. *)
Lemma regularLoop_shape rows batchSize h :
  forall n i sl st0 c st1,
    regularSlices rows batchSize n i = Some sl ->
    regularLoop n i batchSize rows h st0 = (c, st1) ->
    exists uses,
      trace st1 = trace st0 ++ uses /\
      Forall (fun ev => exists args r, ev = EvExec h args r) uses /\
      SQL (ins st1) = SQL (ins st0) /\ Casts (ins st1) = Casts (ins st0) /\
      result (ins st1) = fold_left add (okResults uses) (result (ins st0)) /\
      okArgs uses = map flatten (firstn (length (okResults uses)) sl) /\
      match c with
      | Done => noFailure uses /\ length (okResults uses) = n /\
                countIf isExec uses = n
      | Failed e => (length (okResults uses) < n)%nat /\
                    (countIf isExec uses <= n)%nat /\
                    exists pre fev, uses = pre ++ [fev] /\
                                    failure fev = Some e /\ noFailure pre
      | Panic => False
      end.
Proof.
  induction n as [|n IH]; intros i sl st0 c st1; cbn [regularSlices regularLoop].
  - intros [= <-] [= <- <-]. exists []. rewrite app_nil_r.
    repeat split; constructor.
  - destruct (regularSlice rows batchSize i) as [b|]; [|discriminate].
    destruct (regularSlices rows batchSize n (int_add i 1)) as [sl'|] eqn:Hsl;
      [|discriminate].
    intros [= <-]. unfold stmtExec.
    destruct (stmt_exec h (flatten b) (world st0)) as [[res|e] w].
    + intros Hloop. destruct (IH _ _ _ _ _ Hsl Hloop)
        as (uses & Ht & Hu & Hsql & Hcasts & Hres & Hargs & Hc).
      exists (EvExec h (flatten b) (inl res) :: uses).
      cbn [trace ins addResult set_result SQL Casts result] in *.
      rewrite Ht, <- app_assoc. cbn [app okResults okArgs length firstn map].
      rewrite Hargs.
      repeat split; try assumption.
      * constructor; [eauto | assumption].
      * destruct c as [|e|]; [| |contradiction].
        -- destruct Hc as (Hnf & Hlen & Hcnt). repeat split.
           ++ constructor; [reflexivity | assumption].
           ++ now rewrite Hlen.
           ++ unfold countIf in *. cbn. now rewrite Hcnt.
        -- destruct Hc as (Hlen & Hcnt & pre & fev & -> & Hf & Hnf).
           split; [lia|]. split; [unfold countIf in *; cbn in *; lia|].
           exists (EvExec h (flatten b) (inl res) :: pre), fev.
           repeat split; try assumption. constructor; [reflexivity | assumption].
    + intros [= <- <-]. exists [EvExec h (flatten b) (inr e)].
      cbn. repeat split; try lia.
      * constructor; [eauto | constructor].
      * exists [], (EvExec h (flatten b) (inr e)). repeat split. constructor.
Qed.

Lemma prepare_facts count st0 r st1 :
  prepare count st0 = (r, st1) ->
  exists query,
    trace st1 = trace st0 ++ [EvPrepare query r] /\
    SQL (ins st1) = SQL (ins st0) /\ Casts (ins st1) = Casts (ins st0) /\
    result (ins st1) = result (ins st0).
Proof.
  unfold prepare.
  destruct (db_prepare _ (world st0)) as [r' w].
  intros [= <- <-]. eexists. cbn. repeat split.
Qed.

Lemma Forall_exec_noClose h (uses : list Event) :
  Forall (fun ev => exists args r, ev = EvExec h args r) uses ->
  countIf isPrepare uses = 0%nat /\ countIf isClose uses = 0%nat /\
  countIf isExec uses = length uses.
Proof.
  unfold countIf. induction 1 as [|ev uses (args & r & ->) _ IH]; cbn.
  - repeat split.
  - destruct IH as (-> & -> & ->). repeat split.
Qed.

(** The closure that runs the regular batches. *)
Lemma regularPhase_shape rows batches batchSize sl st0 c st1 :
  0 < batches ->
  regularSlices rows batchSize (Z.to_nat batches) 0 = Some sl ->
  regularPhase batches batchSize rows st0 = (c, st1) ->
  exists seg err,
    trace st1 = trace st0 ++ seg /\
    SQL (ins st1) = SQL (ins st0) /\ Casts (ins st1) = Casts (ins st0) /\
    match c with Done => err = None | Failed e => err = Some e | Panic => False end /\
    phaseShape sl (result (ins st0)) seg (result (ins st1)) err.
Proof.
  intros Hb Hsl. unfold regularPhase.
  pose proof (regularSlices_length _ _ _ _ _ Hsl) as Hlen.
  destruct (prepare batchSize st0) as [[h|e] st'] eqn:Hp;
    apply prepare_facts in Hp as (query & Ht & Hsql & Hcasts & Hres).
  - destruct (regularLoop (Z.to_nat batches) 0 batchSize rows h st')
      as [c' st2] eqn:Hloop.
    intros [= <- <-].
    destruct (regularLoop_shape _ _ _ _ _ _ _ _ _ Hsl Hloop)
      as (uses & Ht2 & Hu & Hsql2 & Hcasts2 & Hres2 & Hargs & Hc).
    exists (EvPrepare query (inl h) :: uses ++ [EvClose h]).
    exists (match c' with Failed e => Some e | _ => None end).
    cbn [stmtClose trace ins].
    rewrite Ht2, Ht, <- !app_assoc. cbn [app].
    rewrite Hsql2, Hcasts2, Hres2, Hres.
    split; [reflexivity|]. split; [assumption|]. split; [assumption|].
    split; [destruct c'; tauto|].
    unfold phaseShape, runShape. cbn [okResults okArgs].
    rewrite okResults_app, okArgs_app. cbn [okResults okArgs].
    rewrite !app_nil_r.
    split; [now constructor|]. split; [reflexivity|]. split; [assumption|].
    destruct c' as [|e|]; [| |contradiction].
    + destruct Hc as (Hnf & Hn & Hcnt). rewrite Hlen.
      split; [|split; [assumption|]].
      * constructor; [reflexivity|]. apply Forall_app. split; [assumption|].
        constructor; [reflexivity | constructor].
      * change (EvPrepare query (inl h) :: uses ++ [EvClose h])
          with ([EvPrepare query (inl h)] ++ uses ++ [EvClose h]).
        rewrite !countIf_app, Hcnt. unfold countIf. cbn. lia.
    + destruct Hc as (Hlt & Hcnt & pre & fev & -> & Hf & Hnf). rewrite Hlen.
      split; [assumption|]. split.
      { change (EvPrepare query (inl h) :: (pre ++ [fev]) ++ [EvClose h])
          with ([EvPrepare query (inl h)] ++ (pre ++ [fev]) ++ [EvClose h]).
        rewrite 2!countIf_app. unfold countIf at 1 3. cbn. lia. }
      exists (EvPrepare query (inl h) :: pre), fev, [EvClose h].
      rewrite <- app_assoc. repeat split; try assumption.
      * constructor; [reflexivity | assumption].
      * constructor; [reflexivity | constructor].
  - intros [= <- <-]. exists [EvPrepare query (inr e)], (Some e).
    rewrite Hres. unfold phaseShape, runShape.
    repeat split; try assumption.
    + constructor.
    + cbn. lia.
    + cbn. lia.
    + exists [], (EvPrepare query (inr e)), []. repeat split; constructor.
Qed.

(** The statement for the last batch. *)
Lemma finalPhase_shape rows leftovers b st0 :
  leftoverSlice rows leftovers = Some b ->
  exists seg res err,
    out (finalPhase leftovers rows st0) = Returned res err /\
    result (ins (final (finalPhase leftovers rows st0))) = res /\
    trace (final (finalPhase leftovers rows st0)) = trace st0 ++ seg /\
    phaseShape [b] (result (ins st0)) seg res err.
Proof.
  intros Hb. unfold finalPhase. rewrite Hb.
  destruct (prepare leftovers st0) as [[h|e] st'] eqn:Hp;
    apply prepare_facts in Hp as (query & Ht & Hsql & Hcasts & Hres).
  - unfold stmtExec.
    destruct (stmt_exec h (flatten b) (world st')) as [[res|e] w].
    + exists [EvPrepare query (inl h); EvExec h (flatten b) (inl res); EvClose h].
      eexists. exists None.
      cbn [out final ins trace result stmtClose addResult set_result].
      rewrite Ht, <- !app_assoc, Hres.
      split; [reflexivity|]. split; [reflexivity|]. split; [reflexivity|].
      split; [|split; [reflexivity|split; [reflexivity|]]].
      * apply (scope_held query h [EvExec h (flatten b) (inl res)]).
        constructor; [eauto | constructor].
      * repeat split. repeat constructor.
    + exists [EvPrepare query (inl h); EvExec h (flatten b) (inr e); EvClose h].
      eexists. exists (Some e).
      cbn [out final ins trace result stmtClose].
      rewrite Ht, <- !app_assoc, Hres.
      split; [reflexivity|]. split; [reflexivity|]. split; [reflexivity|].
      split; [|split; [reflexivity|split; [reflexivity|]]].
      * apply (scope_held query h [EvExec h (flatten b) (inr e)]).
        constructor; [eauto | constructor].
      * split; [cbn; lia|]. split; [cbn; lia|].
        exists [EvPrepare query (inl h)], (EvExec h (flatten b) (inr e)), [EvClose h].
        repeat split; repeat constructor.
  - exists [EvPrepare query (inr e)]. eexists. exists (Some e).
    cbn [out final].
    split; [reflexivity|]. split; [reflexivity|]. split; [assumption|].
    rewrite Hres.
    split; [constructor|split; [reflexivity|split; [reflexivity|]]].
    split; [cbn; lia|]. split; [cbn; lia|].
    exists [], (EvPrepare query (inr e)), []. repeat split; constructor.
Qed.

Lemma okResults_tail fev post e :
  failure fev = Some e -> onlyClose post -> okResults (fev :: post) = [].
Proof.
  intros Hf Hpost.
  assert (Hp : okResults post = []).
  { induction Hpost as [|ev post Hev _ IH]; [reflexivity|].
    destruct ev as [q r|h args r|h]; try discriminate. exact IH. }
  destruct fev as [q [h|e']|h args [res|e']|h]; try discriminate; exact Hp.
Qed.

Lemma noFailure_countExec t :
  noFailure t -> countIf isExec t = length (okResults t).
Proof.
  unfold countIf. induction 1 as [|ev t Hev _ IH]; [reflexivity|].
  destruct ev as [q r|h args [res|e]|h]; cbn in *; try discriminate;
    now rewrite ?IH.
Qed.

(** A failure among the first batches is a failure of the longer plan. *)
Lemma runShape_failed_more sl more seed t res e :
  runShape sl seed t res (Some e) ->
  runShape (sl ++ more) seed t res (Some e).
Proof.
  intros (Hres & Hargs & Hlt & Hcnt & Hsplit). repeat split; try assumption.
  - rewrite Hargs, firstn_app.
    replace (length (okResults t) - length sl)%nat with 0%nat by lia.
    cbn [firstn]. now rewrite app_nil_r.
  - rewrite length_app. lia.
  - rewrite length_app. lia.
Qed.

(** Two stretches in a row, the first without an error. *)
Lemma runShape_seq sl1 sl2 seed t1 mid t2 res err :
  runShape sl1 seed t1 mid None ->
  runShape sl2 mid t2 res err ->
  runShape (sl1 ++ sl2) seed (t1 ++ t2) res err.
Proof.
  intros (Hmid & Hargs1 & Hnf1 & Hlen1 & Hcnt1) (Hres & Hargs2 & Herr).
  unfold runShape.
  rewrite okResults_app, okArgs_app, fold_left_app, <- Hmid, length_app.
  rewrite Hargs1, Hargs2, Hlen1.
  split; [assumption|]. split.
  - rewrite firstn_app, firstn_all, (firstn_all2 sl1) by lia.
    replace (length sl1 + length (okResults t2) - length sl1)%nat
      with (length (okResults t2)) by lia.
    now rewrite map_app.
  - destruct err as [e|].
    + destruct Herr as (Hlt & Hcnt & pre & fev & post & -> & Hf & Hnf & Hpost).
      split; [rewrite length_app; lia|].
      split; [rewrite countIf_app, length_app; lia|].
      exists (t1 ++ pre), fev, post. rewrite <- app_assoc.
      repeat split; try assumption. apply Forall_app. now split.
    + destruct Herr as (Hnf2 & Hlen2 & Hcnt2).
      rewrite length_app, countIf_app. repeat split; try lia.
      apply Forall_app. now split.
Qed.

(** The shape of every run of [Exec] that comes back: no panic, the
    result returned is the one left in the receiver, and the trace is one
    statement's stretch, or the stretch of the statement of the regular
    batches followed, when that one went through, by the stretch of the
    statement of the last batch. *)
Lemma Exec_shape fuel s rows w run :
  len rows <= max_int ->
  Exec fuel s rows w = Some run ->
  exists p sl res err,
    plan fuel (len (Casts s)) (len rows) = Some p /\
    planSlices rows p = Some sl /\
    out run = Returned res err /\
    result (ins (final run)) = res /\
    runShape sl (result s) (trace (final run)) res err /\
    match p with
    | NoSplit _ => Scope (trace (final run))
    | Split batches _ _ =>
        (exists e, err = Some e /\ Scope (trace (final run)) /\
                   (countIf isExec (trace (final run)) <= Z.to_nat batches)%nat) \/
        (exists seg1 seg2,
            trace (final run) = seg1 ++ seg2 /\ Scope seg1 /\ Scope seg2 /\
            noFailure seg1 /\ countIf isExec seg1 = Z.to_nat batches /\
            (countIf isExec seg2 <= 1)%nat)
    end.
Proof.
  intros Hmax. unfold Exec.
  destruct (plan fuel (len (Casts s)) (len rows)) as [p|] eqn:Hp; [|discriminate].
  destruct (planSlices_spec rows fuel _ p Hmax Hp) as (sl & Hsl & _).
  destruct p as [l | b bs l].
  - intros [= <-]. cbn [planSlices] in Hsl.
    destruct (leftoverSlice rows l) as [last|] eqn:Hlast; [|discriminate].
    injection Hsl as <-.
    destruct (finalPhase_shape rows l last (mkSt s w []) Hlast)
      as (seg & res & err & Hout & Hres & Ht & Hscope & Hshape).
    cbn [trace app ins] in Ht, Hshape. rewrite <- Ht in Hscope, Hshape.
    exists (NoSplit l), [last], res, err. cbn [planSlices]. rewrite Hlast.
    conj_easy. assumption.
  - cbn [planSlices] in Hsl.
    destruct (regularSlices rows bs (Z.to_nat b) 0) as [regs|] eqn:Hregs;
      [|discriminate].
    destruct (leftoverSlice rows l) as [last|] eqn:Hlast; [|discriminate].
    injection Hsl as <-.
    apply plan_split_inv in Hp as Hinv; [|pose proof (len_nonneg rows); lia].
    destruct Hinv as ([Hb _] & _).
    destruct (regularPhase b bs rows (mkSt s w [])) as [c st1] eqn:Hphase.
    destruct (regularPhase_shape _ _ _ _ _ _ _ Hb Hregs Hphase)
      as (seg1 & err1 & Ht1 & _ & _ & Hc & Hscope1 & Hshape1).
    cbn [trace app ins] in Ht1, Hshape1.
    destruct c as [|e|]; [| |contradiction]; subst err1.
    + intros [= <-].
      destruct (finalPhase_shape rows l last st1 Hlast)
        as (seg2 & res & err & Hout & Hres & Ht2 & Hscope2 & Hshape2).
      exists (Split b bs l), (regs ++ [last]), res, err.
      cbn [planSlices]. rewrite Hregs, Hlast, Ht2, Ht1.
      conj_easy. split.
      * eapply runShape_seq; eassumption.
      * right. exists seg1, seg2.
        destruct Hshape1 as (_ & _ & Hnf & Hlen & Hcnt).
        rewrite (regularSlices_length _ _ _ _ _ Hregs) in Hcnt.
        repeat split; try assumption.
        destruct err as [e|].
        -- destruct Hshape2 as (_ & _ & _ & Hcnt2 & _). exact Hcnt2.
        -- destruct Hshape2 as (_ & _ & _ & _ & Hcnt2). cbn in Hcnt2. lia.
    + intros [= <-]. cbn [out final].
      exists (Split b bs l), (regs ++ [last]), (result (ins st1)), (Some e).
      cbn [planSlices]. rewrite Hregs, Hlast, Ht1.
      conj_easy. split.
      * now apply runShape_failed_more.
      * left. exists e. repeat split; try assumption.
        destruct Hshape1 as (_ & _ & _ & Hcnt & _).
        now rewrite (regularSlices_length _ _ _ _ _ Hregs) in Hcnt.
Qed.

Lemma okArgs_tail fev post e :
  failure fev = Some e -> onlyClose post -> okArgs (fev :: post) = [].
Proof.
  intros Hf Hpost.
  assert (Hp : okArgs post = []).
  { induction Hpost as [|ev post Hev _ IH]; [reflexivity|].
    destruct ev as [q r|h args r|h]; try discriminate. exact IH. }
  destruct fev as [q [h|e']|h args [res|e']|h]; try discriminate; exact Hp.
Qed.

Lemma Scope_prepares seg : Scope seg -> countIf isPrepare seg = 1%nat.
Proof.
  intros [q e | q h uses Hu]; [reflexivity|].
  change (EvPrepare q (inl h) :: uses ++ [EvClose h])
    with ([EvPrepare q (inl h)] ++ uses ++ [EvClose h]).
  apply Forall_exec_noClose in Hu as (Hu & _).
  rewrite !countIf_app, Hu. reflexivity.
Qed.

(** [Exec] comes back exactly when its planning does. *)
Lemma Exec_returns fuel s rows w p :
  plan fuel (len (Casts s)) (len rows) = Some p ->
  exists run, Exec fuel s rows w = Some run.
Proof.
  intros Hp. unfold Exec. rewrite Hp. destruct p as [l | b bs l]; [eauto|].
  destruct (regularPhase b bs rows (mkSt s w [])) as [[|e|] st1]; eauto.
Qed.

Lemma rowsAffected_fold (l : list SqlResult) (r : result_t) :
  rowsAffected (fold_left add l r) = rowsAffected r + sumZ (map RowsAffected l).
Proof.
  revert r. induction l as [|x l IH]; intros r; cbn [fold_left map].
  - unfold sumZ. cbn. lia.
  - rewrite IH. unfold sumZ. cbn. lia.
Qed.

End ExecFacts.

(* ================================================================== *)
(** ** When planning comes to an end *)

Section Termination.

(** With fewer columns than [MaxBindVars] every [batchSize] computed is
    at least 1 and the loop runs out of rows to move. *)
Lemma plan_terminates columnCount rowCount :
  0 <= columnCount < MaxBindVars -> 0 <= rowCount ->
  columnCount * rowCount <= max_int ->
  rowCount <= max_int ->
  exists p, plan (S (Z.to_nat rowCount)) columnCount rowCount = Some p.
Proof.
  intros HC HR Hprod Hmax. unfold plan.
  set (b0 := int_div (int_mul columnCount rowCount) MaxBindVars).
  destruct (Z.gtb_spec b0 0) as [Hb0|Hb0]; [|eauto].
  destruct (plan_head columnCount rowCount (conj HR Hmax) Hb0)
    as (Hb1 & Hadd & Hbs & Hbs0 & Hprod0 & Hleft & Hsub).
  fold b0 in Hb1, Hadd, Hbs, Hprod0, Hleft, Hsub, Hbs0 |- *.
  set (bs := int_div rowCount (int_add b0 1)) in *.
  rewrite Hsub.
  assert (Hcr : 0 <= columnCount * rowCount)
    by (apply Z.mul_nonneg_nonneg; lia).
  assert (Hb0' : b0 = columnCount * rowCount / MaxBindVars).
  { unfold b0, int_div.
    rewrite (int_mul_id columnCount rowCount) by (int_bounds; lia).
    apply Z.quot_div_nonneg; [assumption | reflexivity]. }
  assert (Hlt : b0 + 1 <= rowCount).
  { assert (b0 < rowCount); [|lia]. rewrite Hb0'.
    apply Z.div_lt_upper_bound; [reflexivity|].
    unfold MaxBindVars in *.
    assert (0 < rowCount) by (destruct (Z.eq_dec rowCount 0) as [->|];
      [rewrite Z.mul_0_r in Hb0'; cbn in Hb0'; lia | lia]).
    apply Zmult_lt_compat_r; lia. }
  assert (Hbs1 : 1 <= bs).
  { rewrite Hbs. apply Z.div_le_lower_bound; lia. }
  destruct (rebalance_terminates bs Hbs1 (S (Z.to_nat rowCount)) b0
              (rowCount - bs * b0)) as (b & l & Hr); try lia.
  rewrite Hr. eauto.
Qed.

(** With [MaxBindVars] columns or more and a row to insert, [batchSize]
    is 0 and the loop never ends. *)
Lemma plan_diverges columnCount rowCount :
  MaxBindVars <= columnCount -> 1 <= rowCount ->
  columnCount * rowCount <= max_int ->
  forall fuel, plan fuel columnCount rowCount = None.
Proof.
  intros HC HR Hprod fuel. unfold plan.
  assert (Hmax : rowCount <= max_int).
  { unfold MaxBindVars in HC.
    assert (0 <= (columnCount - 1) * rowCount)
      by (apply Z.mul_nonneg_nonneg; lia). lia. }
  set (b0 := int_div (int_mul columnCount rowCount) MaxBindVars).
  assert (Hcr : 0 <= columnCount * rowCount)
    by (apply Z.mul_nonneg_nonneg; unfold MaxBindVars in HC; lia).
  assert (Hb0' : b0 = columnCount * rowCount / MaxBindVars).
  { unfold b0, int_div.
    rewrite (int_mul_id columnCount rowCount) by (int_bounds; lia).
    apply Z.quot_div_nonneg; [assumption | reflexivity]. }
  assert (Hge : rowCount <= b0).
  { rewrite Hb0'. apply Z.div_le_lower_bound; [reflexivity|].
    apply Z.mul_le_mono_nonneg_r; lia. }
  destruct (Z.gtb_spec b0 0) as [Hb0|Hb0]; [|lia].
  destruct (plan_head columnCount rowCount ltac:(lia) Hb0)
    as (Hb1 & Hadd & Hbs & Hbs0 & Hprod0 & Hleft & Hsub).
  fold b0 in Hb1, Hadd, Hbs, Hprod0, Hleft, Hsub, Hbs0 |- *.
  set (bs := int_div rowCount (int_add b0 1)) in *.
  assert (Hz : bs = 0) by (rewrite Hbs; apply Z.div_small; lia).
  rewrite Hsub, Hz, Z.mul_0_l, Z.sub_0_r.
  rewrite rebalance_stuck by lia. reflexivity.
Qed.

End Termination.

(* ================================================================== *)
(** ** Properties of the plan *)

Section PlanTheorems.

Lemma Forall_repeat {A} (P : A -> Prop) x n : P x -> Forall P (repeat x n).
Proof. intros H. induction n; cbn; constructor; assumption. Qed.

Lemma map_eq_repeat {A B} (f : A -> B) l y n :
  map f l = repeat y n -> length l = n /\ Forall (fun x => f x = y) l.
Proof.
  revert n. induction l as [|x l IH]; intros [|n]; cbn; try discriminate.
  - split; [reflexivity | constructor].
  - intros [= Hx Hl]. destruct (IH _ Hl) as [<- Hall].
    split; [reflexivity | constructor; assumption].
Qed.

(** In a list of pieces, piece [k] is the range of the whole that starts
    where the pieces before it end. *)
Lemma concat_nth_range {A} (sl : list (list A)) :
  forall k, (k < length sl)%nat ->
    nth k sl [] =
    firstn (length (nth k sl []))
           (skipn (length (concat (firstn k sl))) (concat sl)).
Proof.
  induction sl as [|b sl IH]; intros k Hk; cbn [length] in Hk; [lia|].
  destruct k as [|k]; cbn [nth firstn concat length skipn].
  - rewrite firstn_app, Nat.sub_diag, firstn_all. cbn [firstn].
    now rewrite app_nil_r.
  - rewrite length_app, skipn_app, skipn_all2 by lia. cbn [app].
    replace (length b + length (concat (firstn k sl)) - length b)%nat
      with (length (concat (firstn k sl))) by lia.
    apply IH. lia.
Qed.

(** C2.  Whenever planning completes, no planned batch, regular or last,
    carries more than [MaxBindVars] bind parameters: its size times the
    column count is at most 65535. *)
Theorem plan_batches_within_MaxBindVars (columnCount rowCount : Z)
  (fuel : nat) (p : BatchPlan) :
  1 <= columnCount -> 0 <= rowCount ->
  columnCount * rowCount <= max_int ->
  plan fuel columnCount rowCount = Some p ->
  Forall (fun size => 0 <= size /\ size * columnCount <= MaxBindVars)
         (planSizes p).
Proof.
  intros HC HR Hprod Hp.
  assert (Hmax : rowCount <= max_int).
  { assert (0 <= (columnCount - 1) * rowCount)
      by (apply Z.mul_nonneg_nonneg; lia). lia. }
  assert (Hcr : 0 <= columnCount * rowCount)
    by (apply Z.mul_nonneg_nonneg; lia).
  assert (Hb0' : int_div (int_mul columnCount rowCount) MaxBindVars =
                 columnCount * rowCount / MaxBindVars).
  { unfold int_div.
    rewrite (int_mul_id columnCount rowCount) by (int_bounds; lia).
    apply Z.quot_div_nonneg; [assumption | reflexivity]. }
  destruct p as [l | b bs l]; cbn [planSizes].
  - apply plan_nosplit_inv in Hp as [-> Hle]. rewrite Hb0' in Hle.
    constructor; [|constructor]. split; [assumption|].
    pose proof (Z.mul_succ_div_gt (columnCount * rowCount) MaxBindVars
                  eq_refl) as Hgt.
    unfold MaxBindVars in *.
    assert (columnCount * rowCount < 65535) by lia.
    rewrite (Z.mul_comm rowCount). lia.
  - pose proof (plan_split_inv _ _ _ _ _ _ (conj HR Hmax) Hp)
      as (Hb & Hbs0 & Hl & Hsum & _).
    assert (Hbs : bs * columnCount <= MaxBindVars).
    { unfold plan in Hp.
      set (b0 := int_div (int_mul columnCount rowCount) MaxBindVars) in *.
      destruct (Z.gtb_spec b0 0) as [Hb0|Hb0]; [|discriminate].
      destruct (plan_head columnCount rowCount (conj HR Hmax) Hb0)
        as (_ & _ & Hbsdef & _ & Hprod0 & Hleft & _).
      fold b0 in Hbsdef, Hprod0, Hleft.
      destruct (rebalance fuel _ b0 _) as [[b' l']|]; [|discriminate].
      injection Hp as _ Hbs _. rewrite Hbs in Hbsdef, Hprod0, Hleft.
      pose proof (Z.mul_succ_div_gt (columnCount * rowCount) MaxBindVars
                    eq_refl) as Hgt.
      rewrite <- Hb0' in Hgt. unfold Z.succ in Hgt.
      assert (H1 : bs * (b0 + 1) <= rowCount) by lia.
      assert (H2 : bs * (b0 + 1) * columnCount <= rowCount * columnCount)
        by (apply Z.mul_le_mono_nonneg_r; lia).
      assert (H3 : (bs * columnCount) * (b0 + 1) < MaxBindVars * (b0 + 1)) by lia.
      apply Zmult_lt_reg_r in H3; lia. }
    apply Forall_app. split.
    + apply Forall_repeat. split; assumption.
    + constructor; [|constructor]. split; [lia|].
      transitivity (bs * columnCount); [|assumption].
      apply Z.mul_le_mono_nonneg_r; lia.
Qed.

Lemma plan_batches_within_MaxBindVars_witness :
  Forall (fun size => 0 <= size /\ size * 2 <= MaxBindVars)
         (planSizes (Split 3 25000 25000)).
Proof.
  apply (plan_batches_within_MaxBindVars 2 100000 4%nat).
  - lia.
  - lia.
  - vm_compute. discriminate.
  - vm_compute. reflexivity.
Defined.

(** C3.  The planning of one row of 65535 columns, which a single
    statement could carry, does not terminate: [batchSize] is 1/2 = 0,
    [leftovers] is 1, and [leftovers > batchSize] holds for ever. *)
Theorem plan_diverges_at_MaxBindVars_columns :
  forall fuel, plan fuel 65535 1 = None.
Proof.
  apply plan_diverges.
  - unfold MaxBindVars. lia.
  - lia.
  - vm_compute. discriminate.
Qed.

(** C7.  Whenever planning completes, the row ranges of the regular
    batches all have length [batchSize], and the last range is no longer
    than [batchSize]; when the rows are not split there is no regular
    batch (and no [batchSize]), the last batch is the whole input. *)
Theorem plan_regular_batches_equal_last_not_larger {A : Type}
  (rows : list A) (columnCount : Z) (fuel : nat) (p : BatchPlan) :
  len rows <= max_int ->
  plan fuel columnCount (len rows) = Some p ->
  exists regs last,
    planSlices rows p = Some (regs ++ [last]) /\
    match p with
    | NoSplit _ => regs = [] /\ last = rows
    | Split batches batchSize leftovers =>
        length regs = Z.to_nat batches /\
        Forall (fun b => len b = batchSize) regs /\
        len last = leftovers /\
        leftovers <= batchSize
    end.
Proof.
  intros Hmax Hp.
  destruct (planSlices_spec rows fuel columnCount p Hmax Hp)
    as (sl & Hsl & Hcat & Hlens & _).
  destruct p as [l | b bs l]; cbn [planSlices planSizes] in *.
  - destruct (leftoverSlice rows l) as [last|]; [|discriminate].
    injection Hsl as <-. exists [], last. cbn in Hcat.
    rewrite app_nil_r in Hcat. repeat split; assumption.
  - destruct (regularSlices rows bs (Z.to_nat b) 0) as [regs|]; [|discriminate].
    destruct (leftoverSlice rows l) as [last|]; [|discriminate].
    injection Hsl as <-. exists regs, last. split; [reflexivity|].
    rewrite map_app in Hlens. cbn [map] in Hlens.
    apply app_inj_tail in Hlens as [Hregs Hlast].
    apply map_eq_repeat in Hregs as [Hn Hall].
    pose proof (len_nonneg rows).
    apply plan_split_inv in Hp as (_ & _ & Hl & _); [|lia].
    repeat split; try assumption. lia.
Qed.

Lemma plan_regular_batches_equal_last_not_larger_witness :
  exists regs last,
    planSlices [10; 20; 30]%nat (Split 2 1 1) = Some (regs ++ [last]) /\
    length regs = Z.to_nat 2 /\
    Forall (fun b => len b = 1) regs /\
    len last = 1 /\ 1 <= 1.
Proof.
  apply (plan_regular_batches_equal_last_not_larger
           [10; 20; 30]%nat 30000 4%nat (Split 2 1 1)).
  - vm_compute. discriminate.
  - vm_compute. reflexivity.
Defined.

(** C10.  When the rows are split and [batchSize] is at least 1, the last
    batch is never empty: after the rebalancing loop
    [1 <= leftovers <= batchSize], and there is at least one regular
    batch. *)
Theorem plan_split_last_batch_nonempty (columnCount rowCount : Z)
  (fuel : nat) (batches batchSize leftovers : Z) :
  0 <= rowCount <= max_int ->
  plan fuel columnCount rowCount = Some (Split batches batchSize leftovers) ->
  1 <= batchSize ->
  1 <= batches /\ 1 <= leftovers <= batchSize.
Proof.
  intros HR Hp Hbs.
  apply plan_split_inv in Hp as (Hb & _ & Hl & _ & Hpos); [|assumption].
  specialize (Hpos Hbs). lia.
Qed.

Lemma plan_split_last_batch_nonempty_witness :
  1 <= 107 /\ 1 <= 85 <= 9345.
Proof.
  apply (plan_split_last_batch_nonempty 7 1000000 200%nat 107 9345 85).
  - vm_compute. split; discriminate.
  - vm_compute. reflexivity.
  - lia.
Defined.

End PlanTheorems.

(* ================================================================== *)
(** ** Properties of [valuePlaceholders] *)

Section PlaceholderTheorems.
Context `{D : Driver}.

Lemma numsFrom_seq n : numsFrom 1 n = map Z.of_nat (seq 1 n).
Proof.
  unfold numsFrom. rewrite <- seq_shift, map_map.
  apply map_ext. intros k. lia.
Qed.

Lemma rowMajor_nth columns count i j :
  (i < count)%nat -> (j < columns)%nat ->
  nth j (nth i (rowMajor columns count) []) 0 =
  Z.of_nat i * Z.of_nat columns + Z.of_nat j + 1.
Proof.
  intros Hi Hj. unfold rowMajor.
  rewrite (nth_indep _ []
             ((fun i => numsFrom (Z.of_nat i * Z.of_nat columns + 1) columns) 0%nat))
    by now rewrite length_map, length_seq.
  rewrite (map_nth (fun i => numsFrom (Z.of_nat i * Z.of_nat columns + 1) columns)).
  rewrite seq_nth by assumption. cbn [Nat.add].
  rewrite numsFrom_nth by assumption. lia.
Qed.

End PlaceholderTheorems.

(* ================================================================== *)
(** ** Properties of [Exec] *)

Section ExecTheorems.
Context `{D : Driver}.

Lemma planSlices_length (rows : list (list Value)) fuel columnCount p sl :
  len rows <= max_int ->
  plan fuel columnCount (len rows) = Some p ->
  planSlices rows p = Some sl ->
  length sl = length (planSizes p).
Proof.
  intros Hmax Hp Hsl.
  destruct (planSlices_spec rows fuel columnCount p Hmax Hp)
    as (sl' & Hsl' & _ & Hlens & _).
  rewrite Hsl in Hsl'. injection Hsl' as <-.
  now rewrite <- Hlens, length_map.
Qed.

(** C4, as the code has it.  A call of [Exec] that returns has come back
    without panic, having executed at most once per batch of the plan,
    and exactly once per batch when it returns no error.  It prepares at
    most two statements: one when the rows are not split; when they are
    split, one for all the regular batches together, executed once for
    each of them, and after it one for the last batch, executed at most
    once, unless an error ends the call before the last batch, with at
    most one execution per regular batch.  Each statement's stretch of the
    trace is a [Scope]: prepared, used for executions of that statement
    only, closed, or refused by the prepare and nothing else; the stretch
    of the regular batches is closed before the last batch's statement is
    prepared, and a stretch that ends in an error is closed all the
    same. *)
Theorem Exec_statement_scopes (fuel : nat) (s : Insert)
  (rows : list (list Value)) (w : World) (run : Run) :
  len rows <= max_int ->
  Exec fuel s rows w = Some run ->
  exists p res err,
    plan fuel (len (Casts s)) (len rows) = Some p /\
    out run = Returned res err /\
    (err = None ->
     countIf isExec (trace (final run)) = length (planSizes p)) /\
    (countIf isExec (trace (final run)) <= length (planSizes p))%nat /\
    match p with
    | NoSplit _ =>
        Scope (trace (final run)) /\
        countIf isPrepare (trace (final run)) = 1%nat
    | Split batches _ _ =>
        (err <> None /\ Scope (trace (final run)) /\
         countIf isPrepare (trace (final run)) = 1%nat /\
         (countIf isExec (trace (final run)) <= Z.to_nat batches)%nat) \/
        (exists seg1 seg2,
            trace (final run) = seg1 ++ seg2 /\ Scope seg1 /\ Scope seg2 /\
            countIf isExec seg1 = Z.to_nat batches /\
            (countIf isExec seg2 <= 1)%nat /\
            countIf isPrepare (trace (final run)) = 2%nat)
    end.
Proof.
  intros Hmax Hrun.
  destruct (Exec_shape _ _ _ _ _ Hmax Hrun)
    as (p & sl & res & err & Hp & Hsl & Hout & _ & Hshape & Hscopes).
  pose proof (planSlices_length _ _ _ _ _ Hmax Hp Hsl) as Hlen.
  exists p, res, err. conj_easy.
  destruct Hshape as (_ & _ & Herr). rewrite <- Hlen.
  split; [|split].
  - intros ->. tauto.
  - destruct err as [e|]; [tauto|]. destruct Herr as (_ & _ & ->). lia.
  - destruct p as [l | b bs l].
    + split; [assumption | now apply Scope_prepares].
    + destruct Hscopes as [(e & -> & Hscope & Hcnt)
                          | (seg1 & seg2 & Ht & Hs1 & Hs2 & _ & Hc1 & Hc2)].
      * left. repeat split; try assumption; [discriminate|].
        now apply Scope_prepares.
      * right. exists seg1, seg2. rewrite Ht, countIf_app.
        rewrite !Scope_prepares by assumption. repeat split; assumption.
Qed.

(** C9.  [Exec] never resets the aggregate it keeps in the receiver: what
    a call returns is what it leaves in [s.result], and a second call on
    the same [Insert] aggregates its own batches on top of the result of
    the first, so that the rows affected it reports include those of the
    first call. *)
Theorem Exec_accumulates_across_calls (fuel1 fuel2 : nat) (s : Insert)
  (rows1 rows2 : list (list Value)) (w : World) (run1 run2 : Run)
  (res1 res2 : result_t) (err1 err2 : option Err) :
  len rows1 <= max_int -> len rows2 <= max_int ->
  Exec fuel1 s rows1 w = Some run1 ->
  out run1 = Returned res1 err1 ->
  Exec fuel2 (ins (final run1)) rows2 (world (final run1)) = Some run2 ->
  out run2 = Returned res2 err2 ->
  result (ins (final run1)) = res1 /\
  res2 = fold_left add (okResults (trace (final run2))) res1 /\
  rowsAffected res2 =
    rowsAffected res1 +
    sumZ (map RowsAffected (okResults (trace (final run2)))).
Proof.
  intros Hmax1 Hmax2 Hrun1 Hout1 Hrun2 Hout2.
  destruct (Exec_shape _ _ _ _ _ Hmax1 Hrun1)
    as (p1 & sl1 & r1 & e1 & _ & _ & Hout1' & Hfield & _).
  rewrite Hout1 in Hout1'. injection Hout1' as <- <-.
  destruct (Exec_shape _ _ _ _ _ Hmax2 Hrun2)
    as (p2 & sl2 & r2 & e2 & _ & _ & Hout2' & _ & (Hres & _) & _).
  rewrite Hout2 in Hout2'. injection Hout2' as <- <-.
  rewrite Hfield in Hres.
  split; [assumption|]. split; [assumption|].
  rewrite Hres. apply rowsAffected_fold.
Qed.

(** With [MaxBindVars] columns or more and a row to insert, [Exec] never
    comes back, whatever the fuel and the state of the store. *)
Lemma Exec_never_returns (s : Insert) (rows : list (list Value)) :
  MaxBindVars <= len (Casts s) -> 1 <= len rows ->
  len (Casts s) * len rows <= max_int ->
  forall fuel w, Exec fuel s rows w = None.
Proof.
  intros HC HR Hprod fuel w. unfold Exec.
  now rewrite (plan_diverges _ _ HC HR Hprod fuel).
Qed.

(** C8.  One column without a cast and no rows: the plan is the single
    batch of size 0, its fragment is empty, and when the store accepts
    the statement and its execution on no arguments, reporting no row
    affected, [Exec] returns without panic, with no error and zero rows
    affected, after one prepare, one execute on the empty argument list
    and one close. *)
Theorem Exec_no_rows (fuel : nat) (sql : string) (w w1 w2 : World)
  (h : Stmt) (res : SqlResult) :
  db_prepare (Replace1 sql "<values>" EmptyString) w = (inl h, w1) ->
  stmt_exec h [] w1 = (inl res, w2) ->
  RowsAffected res = 0 ->
  plan fuel 1 0 = Some (NoSplit 0) /\
  planSizes (NoSplit 0) = [0] /\
  valuePlaceholders (NewInsert sql [EmptyString]) 0 = EmptyString /\
  exists run r,
    Exec fuel (NewInsert sql [EmptyString]) [] w = Some run /\
    out run = Returned r None /\
    rowsAffected r = 0 /\
    r = add result_zero res /\
    trace (final run) =
      [EvPrepare (Replace1 sql "<values>" EmptyString) (inl h);
       EvExec h [] (inl res); EvClose h].
Proof.
  intros Hprep Hexec Hrows.
  split; [reflexivity|]. split; [reflexivity|]. split; [reflexivity|].
  unfold Exec. change (plan fuel (len (Casts (NewInsert sql [EmptyString])))
                            (len (@nil (list Value))))
    with (Some (NoSplit 0)).
  cbn iota beta. unfold finalPhase, prepare.
  change (valuePlaceholders (ins (mkSt (NewInsert sql [EmptyString]) w [])) 0)
    with EmptyString.
  cbn [ins world trace SQL NewInsert]. rewrite Hprep.
  change (leftoverSlice (@nil (list Value)) 0) with (Some (@nil (list Value))).
  unfold stmtExec. cbn [flatten fold_left world]. rewrite Hexec.
  eexists. eexists. split; [reflexivity|]. split; [reflexivity|].
  cbn. rewrite Hrows. repeat split.
Qed.

End ExecTheorems.

(* ================================================================== *)
(** ** The model run on concrete inputs *)

Section Runs.

(** C4, as the spec has it, fails: three rows of 43690 columns are
    planned as three batches of one row, and the run, in which every call
    succeeds, prepares two statements for them, not three: the first
    statement is executed for two batches before it is closed. *)
Lemma Exec_prepares_fewer_statements_than_batches :
  match Exec (D := okDriver) 4 (NewInsert (D := okDriver) insertSQL wideCasts)
             threeRows 0%nat,
        plan 4 (len wideCasts) (len threeRows) with
  | Some run, Some p =>
      planSizes p = [1; 1; 1] /\
      countIf isExec (trace (final run)) = 3%nat /\
      countIf isPrepare (trace (final run)) = 2%nat /\
      countIf isPrepare (trace (final run)) <> length (planSizes p)
  | _, _ => False
  end.
Proof.
  lazy. repeat split; discriminate.
Qed.

Lemma Exec_accumulates_across_calls_witness :
  exists run1 run2 res1 res2,
    Exec (D := okDriver) 1 oneColumn twoRows 0%nat = Some run1 /\
    out run1 = Returned res1 None /\
    Exec (D := okDriver) 1 (ins (final run1)) twoRows (world (final run1))
      = Some run2 /\
    out run2 = Returned res2 None /\
    rowsAffected res1 = 2 /\ rowsAffected res2 = 4 /\
    result (ins (final run1)) = res1 /\
    res2 = fold_left (add (H := okDriver)) (okResults (trace (final run2))) res1 /\
    rowsAffected res2 =
      rowsAffected res1 +
      sumZ (map (RowsAffected (Driver := okDriver))
                (okResults (trace (final run2)))).
Proof.
  do 4 eexists.
  split; [vm_compute; reflexivity|]. split; [reflexivity|].
  split; [vm_compute; reflexivity|]. split; [reflexivity|].
  split; [reflexivity|]. split; [reflexivity|].
  eapply (Exec_accumulates_across_calls (D := okDriver) 1 1 oneColumn
            twoRows twoRows 0%nat).
  - vm_compute. discriminate.
  - vm_compute. discriminate.
  - vm_compute. reflexivity.
  - reflexivity.
  - vm_compute. reflexivity.
  - reflexivity.
Defined.

Lemma Exec_no_rows_witness :
  plan 1 1 0 = Some (NoSplit 0) /\
  planSizes (NoSplit 0) = [0] /\
  valuePlaceholders oneColumn 0 = EmptyString /\
  exists run r,
    Exec (D := okDriver) 1 oneColumn [] 0%nat = Some run /\
    out run = Returned r None /\
    rowsAffected r = 0 /\
    r = add (H := okDriver) result_zero (1, 0) /\
    trace (final run) =
      [EvPrepare (D := okDriver)
                 (Replace1 insertSQL "<values>" EmptyString) (inl 0%nat);
       EvExec (D := okDriver) 0%nat [] (inl (1, 0));
       EvClose (D := okDriver) 0%nat].
Proof.
  apply (Exec_no_rows (D := okDriver) 1 insertSQL 0%nat 1%nat 2%nat 0%nat (1, 0)).
  - reflexivity.
  - reflexivity.
  - reflexivity.
Defined.

End Runs.

(* ================================================================== *)
(** ** More on the plan *)

Section PlanShape.

(** Without rows nothing is split, whatever the number of columns. *)
Lemma plan_no_rows fuel columnCount :
  plan fuel columnCount 0 = Some (NoSplit 0).
Proof.
  unfold plan, int_mul. rewrite Z.mul_0_r.
  replace (wrap 0) with 0 by (vm_compute; reflexivity).
  reflexivity.
Qed.

(** The quantities of a split plan, when the product of the lengths does
    not wrap around: the [batches] of line 43, the [batchSize] of line 45,
    and what the loop turns them into. *)
Lemma plan_split_facts fuel columnCount rowCount batches batchSize leftovers :
  0 <= columnCount -> 0 <= rowCount <= max_int ->
  columnCount * rowCount <= max_int ->
  plan fuel columnCount rowCount = Some (Split batches batchSize leftovers) ->
  let b0 := columnCount * rowCount / MaxBindVars in
  1 <= b0 /\ batchSize = rowCount / (b0 + 1) /\ 1 <= batchSize /\
  b0 <= batches /\ 1 <= leftovers <= batchSize /\
  batches * batchSize + leftovers = rowCount.
Proof.
  intros HC HR Hprod Hp b0.
  pose proof (plan_split_inv _ _ _ _ _ _ HR Hp) as (Hb & Hbs0 & Hl & Hsum & Hpos).
  assert (Hbs1 : 1 <= batchSize).
  { destruct (Z.eq_dec batchSize 0) as [Hz|Hnz]; [|lia].
    assert (HR0 : rowCount = 0) by (rewrite Hz in *; lia).
    rewrite HR0, plan_no_rows in Hp. discriminate. }
  specialize (Hpos Hbs1).
  assert (Hcr : 0 <= columnCount * rowCount)
    by (apply Z.mul_nonneg_nonneg; lia).
  assert (Hb0' : int_div (int_mul columnCount rowCount) MaxBindVars = b0).
  { unfold int_div.
    rewrite (int_mul_id columnCount rowCount) by (int_bounds; lia).
    apply Z.quot_div_nonneg; [assumption | reflexivity]. }
  unfold plan in Hp. rewrite Hb0' in Hp.
  destruct (Z.gtb_spec b0 0) as [Hb0|Hb0]; [|discriminate].
  pose proof (plan_head columnCount rowCount HR) as Hhead.
  cbv zeta in Hhead. rewrite Hb0' in Hhead.
  destruct (Hhead Hb0) as (_ & Hadd & Hbsdef & _ & Hprod0 & Hleft & Hsub).
  rewrite Hsub in Hp.
  destruct (rebalance fuel (int_div rowCount (int_add b0 1)) b0 _)
    as [[b l]|] eqn:Hr; [|discriminate].
  injection Hp as -> Hbs ->. rewrite Hbs in Hr, Hbsdef, Hleft, Hprod0.
  destruct (rebalance_inv rowCount fuel batchSize Hbs1 ltac:(lia)
              b0 (rowCount - batchSize * b0) batches leftovers
              ltac:(lia) ltac:(lia) ltac:(lia) Hr) as (_ & Hle & _).
  repeat split; try lia.
Qed.

(** Line 43 without wrap-around. *)
Lemma plan_batches_div columnCount rowCount :
  0 <= columnCount -> 0 <= rowCount ->
  columnCount * rowCount <= max_int ->
  int_div (int_mul columnCount rowCount) MaxBindVars =
  columnCount * rowCount / MaxBindVars.
Proof.
  intros HC HR Hprod.
  assert (Hcr : 0 <= columnCount * rowCount)
    by (apply Z.mul_nonneg_nonneg; lia).
  unfold int_div.
  rewrite (int_mul_id columnCount rowCount) by (int_bounds; lia).
  apply Z.quot_div_nonneg; [assumption | reflexivity].
Qed.

Lemma plan_nosplit_lt fuel columnCount rowCount leftovers :
  0 <= columnCount -> 0 <= rowCount ->
  columnCount * rowCount <= max_int ->
  plan fuel columnCount rowCount = Some (NoSplit leftovers) ->
  leftovers = rowCount /\ columnCount * rowCount < MaxBindVars.
Proof.
  intros HC HR Hprod Hp. apply plan_nosplit_inv in Hp as [-> Hle].
  split; [reflexivity|].
  rewrite plan_batches_div in Hle by assumption.
  pose proof (Z.mul_succ_div_gt (columnCount * rowCount) MaxBindVars
                eq_refl) as Hgt.
  unfold MaxBindVars in *. lia.
Qed.

Lemma plan_small fuel columnCount rowCount :
  0 <= columnCount -> 0 <= rowCount ->
  columnCount * rowCount < MaxBindVars ->
  plan fuel columnCount rowCount = Some (NoSplit rowCount).
Proof.
  intros HC HR Hlt. unfold plan.
  assert (0 <= columnCount * rowCount)
    by (apply Z.mul_nonneg_nonneg; lia).
  rewrite plan_batches_div
    by (try assumption; int_bounds; unfold MaxBindVars in *; lia).
  rewrite (Z.div_small _ MaxBindVars) by lia. reflexivity.
Qed.


(** X1.  An empty batch is planned exactly when there are no rows to
    insert: the single batch of an unsplit plan is the whole input, and a
    split plan has neither an empty regular batch nor an empty last
    batch. *)
Theorem plan_empty_batch_iff_no_rows (fuel : nat) (columnCount rowCount : Z)
  (p : BatchPlan) :
  0 <= rowCount <= max_int ->
  plan fuel columnCount rowCount = Some p ->
  In 0 (planSizes p) <-> rowCount = 0.
Proof.
  intros HR Hp. destruct p as [l | b bs l]; cbn [planSizes].
  - apply plan_nosplit_inv in Hp as [-> _]. cbn. intuition lia.
  - pose proof (plan_split_inv _ _ _ _ _ _ HR Hp) as (Hb & Hbs0 & Hl & Hsum & Hpos).
    assert (Hbs1 : 1 <= bs).
    { destruct (Z.eq_dec bs 0) as [Hz|Hnz]; [|lia].
      assert (HR0 : rowCount = 0) by (rewrite Hz in *; lia).
      rewrite HR0, plan_no_rows in Hp. discriminate. }
    specialize (Hpos Hbs1). split.
    + intros Hin. apply in_app_or in Hin as [Hin | [Hin | []]]; [|lia].
      apply repeat_spec in Hin. lia.
    + intros HR0. assert (0 <= b * bs) by (apply Z.mul_nonneg_nonneg; lia). lia.
Qed.

Lemma plan_empty_batch_iff_no_rows_witness :
  In 0 (planSizes (Split 2 32767 1)) <-> 65535 = 0.
Proof.
  apply (plan_empty_batch_iff_no_rows 3 1 65535 (Split 2 32767 1)).
  - vm_compute. split; discriminate.
  - vm_compute. reflexivity.
Defined.

(** X2.  The rows go out in one statement exactly when they need fewer than
    [MaxBindVars] parameters; with exactly 65535 parameters they are
    split already. *)
Theorem plan_single_statement_iff (fuel : nat) (columnCount rowCount : Z) :
  0 <= columnCount -> 0 <= rowCount ->
  columnCount * rowCount <= max_int ->
  plan fuel columnCount rowCount = Some (NoSplit rowCount) <->
  columnCount * rowCount < MaxBindVars.
Proof.
  intros HC HR Hprod. split.
  - intros Hp. now apply plan_nosplit_lt in Hp as [_ Hlt].
  - intros Hlt. now apply plan_small.
Qed.

Lemma plan_single_statement_iff_witness :
  plan 1 2 32767 = Some (NoSplit 32767) <-> 2 * 32767 < MaxBindVars.
Proof.
  apply (plan_single_statement_iff 1 2 32767).
  - lia.
  - lia.
  - vm_compute. discriminate.
Defined.

(** X3.  What the planning computes, in closed form.  With at least one
    and fewer than [MaxBindVars] columns, and rows that need
    [MaxBindVars] parameters or more, it comes to an end within
    [rowCount + 1] tests of the loop condition, and the plan is
    [batchSize = rowCount / (columnCount*rowCount/MaxBindVars + 1)] rows
    per regular batch, [(rowCount-1) / batchSize] regular batches, and
    the remaining [(rowCount-1) mod batchSize + 1] rows in the last
    batch: the rows are cut into [ceil (rowCount / batchSize)] batches. *)
Theorem plan_closed_form (columnCount rowCount : Z) :
  1 <= columnCount < MaxBindVars -> 0 <= rowCount ->
  MaxBindVars <= columnCount * rowCount <= max_int ->
  let batchSize :=
    rowCount / (columnCount * rowCount / MaxBindVars + 1) in
  let closed :=
    Split ((rowCount - 1) / batchSize) batchSize
          ((rowCount - 1) mod batchSize + 1) in
  1 <= batchSize /\
  plan (S (Z.to_nat rowCount)) columnCount rowCount = Some closed /\
  forall fuel p, plan fuel columnCount rowCount = Some p -> p = closed.
Proof.
  intros HC HR Hprod batchSize closed.
  assert (Hmax : rowCount <= max_int).
  { assert (0 <= (columnCount - 1) * rowCount)
      by (apply Z.mul_nonneg_nonneg; lia). lia. }
  assert (Hall : forall fuel p,
             plan fuel columnCount rowCount = Some p ->
             1 <= batchSize /\ p = closed).
  { intros fuel p Hp. destruct p as [l | b bs l].
    - apply plan_nosplit_lt in Hp as [_ Hlt]; lia.
    - destruct (plan_split_facts fuel columnCount rowCount b bs l
                  ltac:(lia) ltac:(lia) ltac:(lia) Hp)
        as (Hb0 & Hbs & Hbs1 & Hle & Hl & Hsum).
      fold batchSize in Hbs. subst bs. split; [assumption|].
      unfold closed. f_equal.
      + apply (Z.div_unique _ _ b (l - 1)); lia.
      + assert (l - 1 = (rowCount - 1) mod batchSize); [|lia].
        apply (Z.mod_unique _ _ b (l - 1)); lia. }
  destruct (plan_terminates columnCount rowCount ltac:(lia) HR ltac:(lia) Hmax)
    as (p & Hp).
  destruct (Hall _ _ Hp) as [Hbs1 ->].
  split; [assumption|]. split; [assumption|].
  intros fuel p' Hp'. now destruct (Hall _ _ Hp').
Qed.

Lemma plan_closed_form_witness :
  1 <= 9345 /\
  plan (S (Z.to_nat 1000000)) 7 1000000 = Some (Split 107 9345 85) /\
  forall fuel p, plan fuel 7 1000000 = Some p -> p = Split 107 9345 85.
Proof.
  apply (plan_closed_form 7 1000000).
  - unfold MaxBindVars. lia.
  - lia.
  - vm_compute. split; discriminate.
Defined.

(** X4.  The comment of [Exec] gives
    [len(casts) * len(rows) / MaxBindVars + 1] as the number of batches
    run.  The loop only adds batches: the plan has at least that many,
    and at most twice that many less one. *)
Theorem plan_batch_count_bounds (fuel : nat) (columnCount rowCount : Z)
  (p : BatchPlan) :
  0 <= columnCount -> 0 <= rowCount <= max_int ->
  columnCount * rowCount <= max_int ->
  plan fuel columnCount rowCount = Some p ->
  let documented := columnCount * rowCount / MaxBindVars + 1 in
  documented <= len (planSizes p) <= 2 * documented - 1.
Proof.
  intros HC HR Hprod Hp documented. subst documented.
  destruct p as [l | b bs l].
  - apply plan_nosplit_lt in Hp as [-> Hlt]; try lia.
    assert (0 <= columnCount * rowCount)
      by (apply Z.mul_nonneg_nonneg; lia).
    rewrite Z.div_small by lia. cbn. lia.
  - destruct (plan_split_facts fuel columnCount rowCount b bs l HC HR Hprod Hp)
      as (Hb0 & Hbs & Hbs1 & Hle & Hl & Hsum).
    set (b0 := columnCount * rowCount / MaxBindVars) in *.
    cbn [planSizes]. unfold len.
    rewrite length_app, repeat_length. cbn [length].
    rewrite Nat2Z.inj_add, Z2Nat.id by lia. cbn [Z.of_nat Pos.of_succ_nat].
    split; [lia|].
    assert (Hup : rowCount < (bs + 1) * (b0 + 1)).
    { rewrite Hbs at 1.
      pose proof (Z.mul_succ_div_gt rowCount (b0 + 1) ltac:(lia)) as Hgt.
      unfold Z.succ in Hgt. rewrite <- Hbs in Hgt.
      rewrite Z.mul_comm. lia. }
    assert (b <= 2 * b0); [|lia].
    destruct (Z.le_gt_cases b (2 * b0)) as [|Hgt]; [assumption|exfalso].
    assert (H1 : (2 * b0 + 1) * bs <= b * bs)
      by (apply Z.mul_le_mono_nonneg_r; lia).
    assert (H2 : b0 * 1 <= b0 * bs)
      by (apply Z.mul_le_mono_nonneg_l; lia).
    lia.
Qed.

Lemma plan_batch_count_bounds_witness :
  1 * 65535 / MaxBindVars + 1 <= len (planSizes (Split 2 32767 1))
    <= 2 * (1 * 65535 / MaxBindVars + 1) - 1.
Proof.
  apply (plan_batch_count_bounds 3 1 65535 (Split 2 32767 1)).
  - lia.
  - vm_compute. split; discriminate.
  - vm_compute. discriminate.
  - vm_compute. reflexivity.
Defined.

End PlanShape.

(* ================================================================== *)
(** ** The calls [Exec] makes *)

Section ExecCalls.
Context `{D : Driver}.

Lemma preparedQueries_app t1 t2 :
  preparedQueries (t1 ++ t2) = preparedQueries t1 ++ preparedQueries t2.
Proof.
  induction t1 as [|[q r|h args r|h] t1 IH]; cbn; rewrite ?IH; reflexivity.
Qed.

Lemma allArgs_app t1 t2 : allArgs (t1 ++ t2) = allArgs t1 ++ allArgs t2.
Proof.
  induction t1 as [|[q r|h args r|h] t1 IH]; cbn; rewrite ?IH; reflexivity.
Qed.

Lemma allArgs_length t : length (allArgs t) = countIf isExec t.
Proof.
  unfold countIf.
  induction t as [|[q r|h args r|h] t IH]; cbn; rewrite ?IH; reflexivity.
Qed.

(** The two [range] loops of a batch append its values row after row. *)
Lemma flatten_concat (batch : list (list Value)) : flatten batch = concat batch.
Proof.
  unfold flatten.
  assert (Hrow : forall (row args : list Value),
             fold_left (fun args arg => args ++ [arg]) row args = args ++ row).
  { induction row as [|x row IH]; intros args; cbn [fold_left].
    - now rewrite app_nil_r.
    - rewrite IH, <- app_assoc. reflexivity. }
  assert (Hall : forall (b : list (list Value)) (args : list Value),
             fold_left (fun args row =>
                          fold_left (fun args arg => args ++ [arg]) row args)
                       b args = args ++ concat b).
  { induction b as [|row b IH]; intros args; cbn [fold_left concat].
    - now rewrite app_nil_r.
    - rewrite IH, Hrow, <- app_assoc. reflexivity. }
  apply (Hall batch []).
Qed.

Lemma valuePlaceholders_Casts (s1 s2 : Insert) count :
  Casts s1 = Casts s2 -> valuePlaceholders s1 count = valuePlaceholders s2 count.
Proof. unfold valuePlaceholders. now intros ->. Qed.

Lemma batchQuery_ext (s1 s2 : Insert) count :
  SQL s1 = SQL s2 -> Casts s1 = Casts s2 ->
  batchQuery s1 count = batchQuery s2 count.
Proof.
  unfold batchQuery. intros -> H. now rewrite (valuePlaceholders_Casts _ _ _ H).
Qed.

Lemma prepare_calls count st0 r st1 :
  prepare count st0 = (r, st1) ->
  trace st1 = trace st0 ++ [EvPrepare (batchQuery (ins st0) count) r] /\
  sameTemplate (ins st1) (ins st0).
Proof.
  unfold prepare, batchQuery.
  destruct (db_prepare _ (world st0)) as [r' w].
  intros [= <- <-]. cbn. repeat split.
Qed.

Lemma regularLoop_calls rows batchSize h :
  forall n i sl st0 c st1,
    regularSlices rows batchSize n i = Some sl ->
    regularLoop n i batchSize rows h st0 = (c, st1) ->
    exists uses,
      trace st1 = trace st0 ++ uses /\
      preparedQueries uses = [] /\
      allArgs uses = map flatten (firstn (countIf isExec uses) sl) /\
      (c = Done -> countIf isExec uses = n) /\
      sameTemplate (ins st1) (ins st0).
Proof.
  induction n as [|n IH]; intros i sl st0 c st1; cbn [regularSlices regularLoop].
  - intros [= <-] [= <- <-]. exists []. rewrite app_nil_r. repeat split.
  - destruct (regularSlice rows batchSize i) as [b|]; [|discriminate].
    destruct (regularSlices rows batchSize n (int_add i 1)) as [sl'|] eqn:Hsl;
      [|discriminate].
    intros [= <-]. unfold stmtExec.
    destruct (stmt_exec h (flatten b) (world st0)) as [[res|e] w].
    + intros Hloop. destruct (IH _ _ _ _ _ Hsl Hloop)
        as (uses & Ht & Hq & Hargs & Hdone & Hsame).
      exists (EvExec h (flatten b) (inl res) :: uses).
      cbn [trace ins addResult] in *.
      rewrite Ht, <- app_assoc. cbn [app preparedQueries allArgs].
      split; [reflexivity|]. split; [assumption|]. split; [|split].
      * unfold countIf in *. cbn [filter isExec length firstn map].
        now rewrite Hargs.
      * intros Hc. unfold countIf in *. cbn [filter isExec length].
        now rewrite (Hdone Hc).
      * destruct Hsame as (H1 & H2 & H3). repeat split; assumption.
    + intros [= <- <-]. exists [EvExec h (flatten b) (inr e)].
      cbn. repeat split. discriminate.
Qed.

Lemma countExec_held query r h (uses : list Event) :
  countIf isExec (EvPrepare query r :: uses ++ [EvClose h]) =
  countIf isExec uses.
Proof.
  unfold countIf. cbn [filter isExec].
  rewrite filter_app. cbn [filter isExec]. now rewrite app_nil_r.
Qed.

Lemma regularPhase_calls rows batches batchSize sl st0 c st1 :
  regularSlices rows batchSize (Z.to_nat batches) 0 = Some sl ->
  regularPhase batches batchSize rows st0 = (c, st1) ->
  exists seg,
    trace st1 = trace st0 ++ seg /\
    preparedQueries seg = [batchQuery (ins st0) batchSize] /\
    allArgs seg = map flatten (firstn (countIf isExec seg) sl) /\
    (c = Done -> countIf isExec seg = length sl) /\
    sameTemplate (ins st1) (ins st0).
Proof.
  intros Hsl. unfold regularPhase.
  pose proof (regularSlices_length _ _ _ _ _ Hsl) as Hlen.
  destruct (prepare batchSize st0) as [[h|e] st'] eqn:Hp;
    apply prepare_calls in Hp as (Ht & Hsame).
  - destruct (regularLoop (Z.to_nat batches) 0 batchSize rows h st')
      as [c' st2] eqn:Hloop.
    intros [= <- <-].
    destruct (regularLoop_calls _ _ _ _ _ _ _ _ _ Hsl Hloop)
      as (uses & Ht2 & Hq & Hargs & Hdone & Hsame2).
    exists (EvPrepare (batchQuery (ins st0) batchSize) (inl h)
              :: uses ++ [EvClose h]).
    cbn [stmtClose trace ins]. rewrite Ht2, Ht, <- !app_assoc.
    cbn [app preparedQueries allArgs].
    rewrite preparedQueries_app, allArgs_app, Hq. cbn [preparedQueries allArgs app].
    rewrite app_nil_r, !countExec_held.
    split; [reflexivity|]. split; [reflexivity|]. split; [assumption|].
    split; [intros Hc; rewrite Hlen; now apply Hdone|].
    destruct Hsame as (H1 & H2 & H3), Hsame2 as (H4 & H5 & H6).
    repeat split; congruence.
  - intros [= <- <-]. exists [EvPrepare (batchQuery (ins st0) batchSize) (inr e)].
    cbn. repeat split; try assumption; try discriminate; apply Hsame.
Qed.

Lemma finalPhase_calls rows leftovers b st0 :
  leftoverSlice rows leftovers = Some b ->
  exists seg,
    trace (final (finalPhase leftovers rows st0)) = trace st0 ++ seg /\
    preparedQueries seg = [batchQuery (ins st0) leftovers] /\
    allArgs seg = map flatten (firstn (countIf isExec seg) [b]) /\
    sameTemplate (ins (final (finalPhase leftovers rows st0))) (ins st0).
Proof.
  intros Hb. unfold finalPhase. rewrite Hb.
  destruct (prepare leftovers st0) as [[h|e] st'] eqn:Hp;
    apply prepare_calls in Hp as (Ht & Hsame).
  - unfold stmtExec.
    destruct (stmt_exec h (flatten b) (world st')) as [[res|e] w].
    + exists [EvPrepare (batchQuery (ins st0) leftovers) (inl h);
              EvExec h (flatten b) (inl res); EvClose h].
      cbn [final ins trace stmtClose addResult].
      rewrite Ht, <- !app_assoc. cbn. repeat split; apply Hsame.
    + exists [EvPrepare (batchQuery (ins st0) leftovers) (inl h);
              EvExec h (flatten b) (inr e); EvClose h].
      cbn [final ins trace stmtClose].
      rewrite Ht, <- !app_assoc. cbn. repeat split; apply Hsame.
  - exists [EvPrepare (batchQuery (ins st0) leftovers) (inr e)].
    cbn [final]. repeat split; try assumption; apply Hsame.
Qed.

(** The calls of a run of [Exec], against its plan: the texts prepared
    are the first texts of the plan, all of them when no error is
    returned; the executions, in order, are on the flattened batches of
    the plan, from the first on; the template of the receiver is left as
    it was. *)
Lemma Exec_calls fuel s rows w run p sl :
  Exec fuel s rows w = Some run ->
  plan fuel (len (Casts s)) (len rows) = Some p ->
  planSlices rows p = Some sl ->
  sameTemplate (ins (final run)) s /\
  allArgs (trace (final run)) =
    map flatten (firstn (countIf isExec (trace (final run))) sl) /\
  exists rest,
    preparedQueries (trace (final run)) ++ rest = planQueries s p /\
    (length rest < length (planQueries s p))%nat /\
    (forall res, out run = Returned res None -> rest = []).
Proof.
  unfold Exec. intros Hrun Hp Hsl. rewrite Hp in Hrun.
  destruct p as [l | b bs l]; cbn [planSlices planQueries] in *.
  - injection Hrun as <-.
    destruct (leftoverSlice rows l) as [last|] eqn:Hlast; [|discriminate].
    injection Hsl as <-.
    destruct (finalPhase_calls rows l last (mkSt s w []) Hlast)
      as (seg & Ht & Hq & Hargs & Hsame).
    cbn [trace app ins] in *. rewrite Ht, Hq.
    split; [assumption|]. split; [assumption|].
    exists []. repeat split. cbn. lia.
  - destruct (regularSlices rows bs (Z.to_nat b) 0) as [regs|] eqn:Hregs;
      [|discriminate].
    destruct (leftoverSlice rows l) as [last|] eqn:Hlast; [|discriminate].
    injection Hsl as <-.
    destruct (regularPhase b bs rows (mkSt s w [])) as [c st1] eqn:Hphase.
    destruct (regularPhase_calls _ _ _ _ _ _ _ Hregs Hphase)
      as (seg1 & Ht1 & Hq1 & Hargs1 & Hdone1 & Hsame1).
    cbn [trace app ins] in *.
    pose proof (regularSlices_length _ _ _ _ _ Hregs) as Hlen.
    assert (Hcnt1 : (countIf isExec seg1 <= length regs)%nat).
    { rewrite <- allArgs_length, Hargs1, length_map, length_firstn. lia. }
    assert (Hfail : allArgs seg1 =
                 map flatten (firstn (countIf isExec seg1) (regs ++ [last]))).
    { rewrite firstn_app.
      replace (countIf isExec seg1 - length regs)%nat with 0%nat by lia.
      cbn [firstn]. now rewrite app_nil_r. }
    destruct c as [|e|].
    + injection Hrun as <-.
      destruct (finalPhase_calls rows l last st1 Hlast)
        as (seg2 & Ht2 & Hq2 & Hargs2 & Hsame2).
      rewrite Ht2, Ht1, preparedQueries_app, allArgs_app, Hq1, Hq2.
      rewrite countIf_app.
      split; [|split].
      * destruct Hsame1 as (H1 & H2 & H3), Hsame2 as (H4 & H5 & H6).
        repeat split; congruence.
      * rewrite Hargs1, Hargs2, (Hdone1 eq_refl), firstn_all.
        rewrite firstn_app, (firstn_all2 regs) by lia.
        replace (length regs + countIf isExec seg2 - length regs)%nat
          with (countIf isExec seg2) by lia.
        now rewrite map_app.
      * exists []. rewrite app_nil_r. cbn [app].
        rewrite (batchQuery_ext (ins st1) s l); try apply Hsame1.
        repeat split. cbn. lia.
    + injection Hrun as <-. cbn [final out]. rewrite Ht1, Hq1.
      split; [assumption|]. split; [exact Hfail|].
      exists [batchQuery s l]. repeat split; [cbn; lia | discriminate].
    + injection Hrun as <-. cbn [final out]. rewrite Ht1, Hq1.
      split; [assumption|]. split; [exact Hfail|].
      exists [batchQuery s l]. repeat split; [cbn; lia | discriminate].
Qed.

End ExecCalls.

(* ================================================================== *)
(** ** The statement text *)

Section StatementText.
Context `{D : Driver}.

Lemma Replace1_eq s old new :
  Replace1 s old new =
  if String.prefix old s
  then (new ++ dropString (String.length old) s)%string
  else match s with
       | EmptyString => EmptyString
       | String c s' => String c (Replace1 s' old new)
       end.
Proof. destruct s; reflexivity. Qed.

Lemma prefix_append old rest : String.prefix old (old ++ rest) = true.
Proof.
  induction old as [|c old IH]; cbn.
  - now destruct rest.
  - destruct (ascii_dec c c) as [_|Hc]; [exact IH | contradiction].
Qed.

Lemma dropString_append old rest :
  dropString (String.length old) (old ++ rest) = rest.
Proof. induction old as [|c old IH]; cbn; [reflexivity | exact IH]. Qed.

Lemma Replace1_first pre old new post :
  (forall k, (k < String.length pre)%nat ->
     String.prefix old (dropString k (pre ++ old ++ post)) = false) ->
  Replace1 (pre ++ old ++ post) old new = (pre ++ new ++ post)%string.
Proof.
  induction pre as [|c pre IH]; intros Hno.
  - cbn [String.append]. rewrite Replace1_eq, prefix_append, dropString_append.
    reflexivity.
  - cbn [String.append]. rewrite Replace1_eq.
    pose proof (Hno 0%nat ltac:(cbn; lia)) as H0. cbn [dropString] in H0.
    cbn [String.append] in H0. rewrite H0. f_equal. apply IH.
    intros k Hk. apply (Hno (S k)). cbn. lia.
Qed.

Lemma Replace1_absent s old new :
  (forall k, String.prefix old (dropString k s) = false) ->
  Replace1 s old new = s.
Proof.
  induction s as [|c s IH]; intros Hno; rewrite Replace1_eq;
    pose proof (Hno 0%nat) as H0; cbn [dropString] in H0; rewrite H0.
  - reflexivity.
  - f_equal. apply IH. intros k. apply (Hno (S k)).
Qed.

(** X5.  The text prepared for a batch is the template with its first
    [<values>] replaced by the fragment of the batch: what stands before
    the marker and what stands after it, later markers included, go to
    the store as they are. *)
Theorem batchQuery_replaces_first_marker (s : Insert) (count : Z)
  (pre post : string) :
  SQL s = (pre ++ "<values>" ++ post)%string ->
  (forall k, (k < String.length pre)%nat ->
     String.prefix "<values>" (dropString k (SQL s)) = false) ->
  batchQuery s count = (pre ++ valuePlaceholders s count ++ post)%string.
Proof.
  intros Hsql Hno. unfold batchQuery. rewrite Hsql in *.
  now apply Replace1_first.
Qed.

(** X6.  A template without the marker is prepared as it is, for every
    batch: the rows' values are then passed to a statement that has no
    placeholder for them. *)
Theorem batchQuery_without_marker (s : Insert) (count : Z) :
  (forall k, String.prefix "<values>" (dropString k (SQL s)) = false) ->
  batchQuery s count = SQL s.
Proof. intros Hno. unfold batchQuery. now apply Replace1_absent. Qed.

Lemma append_inj_r (s1 s2 t : string) :
  (s1 ++ t)%string = (s2 ++ t)%string -> s1 = s2.
Proof.
  assert (Hlen : forall a b : string,
             String.length (a ++ b) = (String.length a + String.length b)%nat).
  { induction a as [|c a IH]; intros b; cbn; [reflexivity | now rewrite IH]. }
  revert s2. induction s1 as [|c s1 IH]; intros [|c2 s2] H.
  - reflexivity.
  - apply (f_equal String.length) in H. rewrite !Hlen in H. cbn in H. lia.
  - apply (f_equal String.length) in H. rewrite !Hlen in H. cbn in H. lia.
  - cbn in H. injection H as -> H. f_equal. now apply IH.
Qed.

(** The decimal text of a number reads back as that number. *)
Lemma itoa_reads_back n :
  option_map Z.of_int (NilZero.int_of_string (itoa n)) = Some n.
Proof.
  unfold itoa. pose proof (DecimalZ.of_to n) as Hn.
  destruct (Z.to_int n) as [d|d] eqn:E.
  - destruct d as [| | | | | | | | | |];
      try (rewrite NilZero.isi by discriminate; cbn [option_map];
           now rewrite Hn).
    rewrite NilZero.isi_posnil. cbn [option_map]. now rewrite <- Hn.
  - destruct d as [| | | | | | | | | |];
      try (rewrite NilZero.isi by discriminate; cbn [option_map];
           now rewrite Hn).
    rewrite NilZero.isi_negnil. cbn [option_map]. now rewrite <- Hn.
Qed.

(** X7.  Two positions of a fragment that carry different parameter
    numbers carry different placeholders: the text of a placeholder
    determines its number. *)
Theorem placeholder_determines_number (n m : Z) (cast : string) :
  placeholder n cast = placeholder m cast -> n = m.
Proof.
  intros H. unfold placeholder in H.
  assert (Hitoa : itoa n = itoa m).
  { destruct (String.eqb cast EmptyString).
    - now injection H.
    - injection H as H. now apply append_inj_r in H. }
  pose proof (itoa_reads_back n) as Hn. rewrite Hitoa, itoa_reads_back in Hn.
  now injection Hn.
Qed.

End StatementText.

(* ================================================================== *)
(** ** More on [Exec] *)

Section ExecMore.
Context `{D : Driver}.

Lemma concat_concat {A} (l : list (list (list A))) :
  concat (map (@concat A) l) = concat (concat l).
Proof.
  induction l as [|x l IH]; cbn [map concat]; [reflexivity|].
  now rewrite concat_app, IH.
Qed.



(** X8.  [Exec] comes back exactly when there are fewer than [MaxBindVars]
    columns or no rows at all; otherwise it loops for ever, whatever the
    store does. *)
Theorem Exec_returns_iff (s : Insert) (rows : list (list Value)) (w : World) :
  len (Casts s) * len rows <= max_int -> len rows <= max_int ->
  (exists fuel run, Exec fuel s rows w = Some run) <->
  (len (Casts s) < MaxBindVars \/ len rows = 0).
Proof.
  intros Hprod Hmax.
  pose proof (len_nonneg (Casts s)) as HC. pose proof (len_nonneg rows) as HR.
  split.
  - intros (fuel & run & Hrun).
    destruct (Z.lt_ge_cases (len (Casts s)) MaxBindVars) as [|Hge]; [now left|].
    destruct (Z.eq_dec (len rows) 0) as [|Hnz]; [now right|].
    unfold Exec in Hrun.
    rewrite (plan_diverges (len (Casts s)) (len rows) Hge ltac:(lia)
               Hprod fuel) in Hrun.
    discriminate.
  - intros [Hlt | Hz].
    + destruct (plan_terminates (len (Casts s)) (len rows)
                  ltac:(lia) HR Hprod Hmax) as (p & Hp).
      destruct (Exec_returns _ s rows w p Hp) as (run & Hrun). eauto.
    + pose proof (plan_no_rows 1 (len (Casts s))) as Hp. rewrite <- Hz in Hp.
      destruct (Exec_returns _ s rows w _ Hp) as (run & Hrun). eauto.
Qed.

(** X9.  No slice expression of [Exec] is ever out of range: a call that
    comes back comes back with a result and an error value, not with a
    panic, and the result is the one kept in the receiver. *)
Theorem Exec_never_panics (fuel : nat) (s : Insert)
  (rows : list (list Value)) (w : World) (run : Run) :
  len rows <= max_int ->
  Exec fuel s rows w = Some run ->
  exists res err,
    out run = Returned res err /\ result (ins (final run)) = res.
Proof.
  intros Hmax Hrun.
  destruct (Exec_shape _ _ _ _ _ Hmax Hrun)
    as (p & sl & res & err & _ & _ & Hout & Hres & _).
  eauto.
Qed.

(** X10.  When [Exec] returns no error, the argument lists of its
    executions, put end to end, are the values of the rows put end to
    end: every value of every row went to the store exactly once, in
    input order; no call failed, and there was one execution per planned
    batch. *)
Theorem Exec_success_passes_every_value_once (fuel : nat) (s : Insert)
  (rows : list (list Value)) (w : World) (run : Run) (res : result_t) :
  len rows <= max_int ->
  Exec fuel s rows w = Some run ->
  out run = Returned res None ->
  concat (allArgs (trace (final run))) = concat rows /\
  noFailure (trace (final run)) /\
  exists p,
    plan fuel (len (Casts s)) (len rows) = Some p /\
    countIf isExec (trace (final run)) = length (planSizes p).
Proof.
  intros Hmax Hrun Hout.
  destruct (Exec_shape _ _ _ _ _ Hmax Hrun)
    as (p & sl & res' & err & Hp & Hsl & Hout' & _ & Hshape & _).
  rewrite Hout in Hout'. injection Hout' as <- <-.
  destruct Hshape as (_ & _ & Hnf & _ & Hcnt).
  destruct (Exec_calls _ _ _ _ _ _ _ Hrun Hp Hsl) as (_ & Hargs & _).
  destruct (planSlices_spec rows fuel _ p Hmax Hp)
    as (sl' & Hsl' & Hcat & Hlens & _).
  rewrite Hsl in Hsl'. injection Hsl' as <-.
  split; [|split; [assumption|]].
  - rewrite Hargs, Hcnt, firstn_all.
    rewrite (map_ext _ (@concat Value) flatten_concat).
    now rewrite concat_concat, Hcat.
  - exists p. split; [assumption|].
    now rewrite Hcnt, <- Hlens, length_map.
Qed.


(** X12.  The statements [Exec] prepares are, in order, those of its plan:
    the template with the fragment for [batchSize] rows when the rows are
    split, then the template with the fragment for the last batch.  At
    least one is prepared on every call, also with no rows; they are all
    prepared when no error is returned. *)
Theorem Exec_prepares_plan_queries (fuel : nat) (s : Insert)
  (rows : list (list Value)) (w : World) (run : Run) :
  len rows <= max_int ->
  Exec fuel s rows w = Some run ->
  exists p rest,
    plan fuel (len (Casts s)) (len rows) = Some p /\
    preparedQueries (trace (final run)) ++ rest = planQueries s p /\
    (length rest < length (planQueries s p))%nat /\
    (forall res, out run = Returned res None -> rest = []).
Proof.
  intros Hmax Hrun.
  destruct (Exec_shape _ _ _ _ _ Hmax Hrun)
    as (p & sl & _ & _ & Hp & Hsl & _).
  destruct (Exec_calls _ _ _ _ _ _ _ Hrun Hp Hsl)
    as (_ & _ & rest & Hq & Hlen & Hnone).
  exists p, rest. repeat split; assumption.
Qed.

(** X13.  Rows that need fewer than [MaxBindVars] parameters go out in one
    round: whatever the fuel, [Exec] comes back after one prepare, of the
    template with the fragment for all the rows, and at most one
    execution, on the values of all the rows in order; without an error
    that execution took place. *)
Theorem Exec_single_statement (fuel : nat) (s : Insert)
  (rows : list (list Value)) (w : World) :
  len (Casts s) * len rows < MaxBindVars ->
  len rows <= max_int ->
  exists run,
    Exec fuel s rows w = Some run /\
    preparedQueries (trace (final run)) = [batchQuery s (len rows)] /\
    (allArgs (trace (final run)) = [] \/
     allArgs (trace (final run)) = [concat rows]) /\
    (forall res, out run = Returned res None ->
       allArgs (trace (final run)) = [concat rows]).
Proof.
  intros Hlt Hmax.
  pose proof (plan_small fuel _ _ (len_nonneg (Casts s)) (len_nonneg rows) Hlt)
    as Hp.
  destruct (Exec_returns _ s rows w _ Hp) as (run & Hrun).
  exists run. split; [assumption|].
  destruct (planSlices_spec rows fuel _ _ Hmax Hp) as (sl & Hsl & Hcat & _).
  assert (Hsl1 : sl = [rows]).
  { cbn [planSlices] in Hsl.
    destruct (leftoverSlice rows (len rows)) as [b|]; [|discriminate].
    injection Hsl as <-. cbn in Hcat. rewrite app_nil_r in Hcat. now subst b. }
  subst sl.
  destruct (Exec_calls _ _ _ _ _ _ _ Hrun Hp Hsl)
    as (_ & Hargs & rest & Hq & Hlen & Hnone).
  cbn [planQueries length] in *.
  destruct rest as [|q rest]; [|cbn in Hlen; lia].
  rewrite app_nil_r in Hq. split; [assumption|].
  destruct (Exec_shape _ _ _ _ _ Hmax Hrun)
    as (p' & sl' & res' & err & Hp' & Hsl' & Hout & _ & Hshape & _).
  rewrite Hp in Hp'. injection Hp' as <-.
  rewrite Hsl in Hsl'. injection Hsl' as <-.
  rewrite Hargs.
  assert (Hk : (countIf isExec (trace (final run)) <= 1)%nat).
  { destruct Hshape as (_ & _ & Herr). destruct err as [e|].
    - now destruct Herr as (_ & Hcnt & _).
    - destruct Herr as (_ & _ & ->). cbn. lia. }
  split.
  - destruct (countIf isExec (trace (final run))) as [|[|k]]; [now left| |lia].
    right. cbn. now rewrite flatten_concat.
  - intros res Hres. rewrite Hres in Hout. injection Hout as <- <-.
    destruct Hshape as (_ & _ & _ & _ & ->). cbn. now rewrite flatten_concat.
Qed.

(** X14.  Of the receiver [Exec] changes [stmt] and [result] only: the
    template, the casts and [bindvars] are after the call what they were
    before it, so that a later call plans for the same columns. *)
Theorem Exec_keeps_template (fuel : nat) (s : Insert)
  (rows : list (list Value)) (w : World) (run : Run) :
  len rows <= max_int ->
  Exec fuel s rows w = Some run ->
  SQL (ins (final run)) = SQL s /\
  Casts (ins (final run)) = Casts s /\
  bindvars (ins (final run)) = bindvars s.
Proof.
  intros Hmax Hrun.
  destruct (Exec_shape _ _ _ _ _ Hmax Hrun)
    as (p & sl & _ & _ & Hp & Hsl & _).
  now destruct (Exec_calls _ _ _ _ _ _ _ Hrun Hp Hsl) as (Hsame & _).
Qed.

End ExecMore.

(* ================================================================== *)
(** ** Further runs of the model *)

Section MoreRuns.

Lemma batchQuery_replaces_first_marker_witness :
  batchQuery oneColumn 2 =
  ("INSERT INTO t (a) VALUES " ++ valuePlaceholders oneColumn 2 ++ "")%string.
Proof.
  apply (batchQuery_replaces_first_marker (D := okDriver) oneColumn 2
           "INSERT INTO t (a) VALUES " "").
  - reflexivity.
  - intros k Hk.
    repeat (destruct k as [|k]; [vm_compute; reflexivity|]).
    cbn in Hk. lia.
Defined.

Lemma batchQuery_without_marker_witness :
  batchQuery markerless 2 = SQL markerless.
Proof.
  apply (batchQuery_without_marker (D := okDriver) markerless 2).
  intros k. do 9 (destruct k as [|k]; [vm_compute; reflexivity|]).
  reflexivity.
Defined.

Lemma placeholder_determines_number_witness : 5 = 5.
Proof.
  apply (placeholder_determines_number 5 5 "int"). reflexivity.
Defined.

Lemma Exec_returns_iff_witness :
  (exists fuel run, Exec (D := okDriver) fuel oneColumn twoRows 0%nat = Some run)
  <-> (len (Casts oneColumn) < MaxBindVars \/ len twoRows = 0).
Proof.
  apply (Exec_returns_iff (D := okDriver) oneColumn twoRows 0%nat).
  - vm_compute. discriminate.
  - vm_compute. discriminate.
Defined.

Lemma Exec_never_panics_witness :
  exists run,
    Exec (D := failAt 1) 1 (NewInsert (D := failAt 1) insertSQL [EmptyString])
         twoRows 0%nat = Some run /\
    exists res err,
      out run = Returned res err /\ result (ins (final run)) = res.
Proof.
  eexists. split; [vm_compute; reflexivity|].
  apply (Exec_never_panics (D := failAt 1) 1
           (NewInsert (D := failAt 1) insertSQL [EmptyString]) twoRows 0%nat).
  - vm_compute. discriminate.
  - vm_compute. reflexivity.
Defined.

Lemma Exec_success_passes_every_value_once_witness :
  exists run res,
    Exec (D := okDriver) 1 oneColumn twoRows 0%nat = Some run /\
    out run = Returned res None /\
    concat (allArgs (trace (final run))) = concat twoRows /\
    noFailure (trace (final run)) /\
    exists p,
      plan 1 (len (Casts oneColumn)) (len twoRows) = Some p /\
      countIf isExec (trace (final run)) = length (planSizes p).
Proof.
  do 2 eexists. split; [vm_compute; reflexivity|]. split; [reflexivity|].
  eapply (Exec_success_passes_every_value_once (D := okDriver) 1
            oneColumn twoRows 0%nat).
  - vm_compute. discriminate.
  - vm_compute. reflexivity.
  - reflexivity.
Defined.


Lemma Exec_prepares_plan_queries_witness :
  exists run,
    Exec (D := okDriver) 1 oneColumn twoRows 0%nat = Some run /\
    exists p rest,
      plan 1 (len (Casts oneColumn)) (len twoRows) = Some p /\
      preparedQueries (trace (final run)) ++ rest = planQueries oneColumn p /\
      (length rest < length (planQueries oneColumn p))%nat /\
      (forall res, out run = Returned res None -> rest = []).
Proof.
  eexists. split; [vm_compute; reflexivity|].
  apply (Exec_prepares_plan_queries (D := okDriver) 1 oneColumn twoRows 0%nat).
  - vm_compute. discriminate.
  - vm_compute. reflexivity.
Defined.

Lemma Exec_single_statement_witness :
  exists run,
    Exec (D := okDriver) 1 oneColumn twoRows 0%nat = Some run /\
    preparedQueries (trace (final run)) = [batchQuery oneColumn (len twoRows)] /\
    (allArgs (trace (final run)) = [] \/
     allArgs (trace (final run)) = [concat twoRows]) /\
    (forall res, out run = Returned res None ->
       allArgs (trace (final run)) = [concat twoRows]).
Proof.
  apply (Exec_single_statement (D := okDriver) 1 oneColumn twoRows 0%nat).
  - vm_compute. reflexivity.
  - vm_compute. discriminate.
Defined.

Lemma Exec_keeps_template_witness :
  exists run,
    Exec (D := okDriver) 1 oneColumn twoRows 0%nat = Some run /\
    SQL (ins (final run)) = SQL oneColumn /\
    Casts (ins (final run)) = Casts oneColumn /\
    bindvars (ins (final run)) = bindvars oneColumn.
Proof.
  eexists. split; [vm_compute; reflexivity|].
  apply (Exec_keeps_template (D := okDriver) 1 oneColumn twoRows 0%nat).
  - vm_compute. discriminate.
  - vm_compute. reflexivity.
Defined.

End MoreRuns.

(* ================================================================== *)
(** ** The text of a fragment *)

Section FragmentText.
Context `{D : Driver}.

Lemma string_app_assoc (a b c : string) :
  ((a ++ b) ++ c)%string = (a ++ (b ++ c))%string.
Proof. induction a as [|x a IH]; cbn; [reflexivity | now rewrite IH]. Qed.

Lemma placeholder_spec n cast : placeholder n cast = specPlaceholder n cast.
Proof. unfold placeholder, specPlaceholder, itoa. now destruct cast. Qed.

(** A rendered row, column by column. *)
Lemma combine_numsFrom {B} (f : Z * string -> B) casts : forall start,
  map f (combine (numsFrom start (length casts)) casts) =
  map (fun j => f (start + Z.of_nat j, nth j casts EmptyString))
      (seq 0 (length casts)).
Proof.
  induction casts as [|c casts IH]; intros start; [reflexivity|].
  cbn [length]. rewrite numsFrom_S. cbn [combine map seq nth].
  rewrite Z.add_0_r. f_equal.
  rewrite IH, <- seq_shift, map_map. apply map_ext. intros j.
  cbn [nth]. do 2 f_equal. lia.
Qed.

Lemma renderRow_spec casts (i : nat) :
  renderRow casts (numsFrom (Z.of_nat i * len casts + 1) (length casts)) =
  specGroup casts i.
Proof.
  unfold renderRow, specGroup, Join, len. do 3 f_equal.
  rewrite combine_numsFrom. apply map_ext. intros j. cbn [fst snd].
  rewrite placeholder_spec. f_equal. lia.
Qed.

Lemma valuePlaceholders_spec (s : Insert) (count : Z) :
  1 <= len (Casts s) -> 0 <= count ->
  count * len (Casts s) <= max_int ->
  valuePlaceholders s count = specFragment (Casts s) (Z.to_nat count).
Proof.
  intros HC Hcount Hmax. unfold valuePlaceholders, specFragment, Join.
  rewrite rowLoop_spec by (rewrite ?Z2Nat.id; lia).
  cbn [app]. f_equal. apply map_ext. intros i.
  rewrite Z.add_0_l. apply renderRow_spec.
Qed.

Lemma digit_not_dollar c : isDigit c = true -> isDollar c = false.
Proof.
  destruct c as [[|] [|] [|] [|] [|] [|] [|] [|]];
    (reflexivity || (intros H; vm_compute in H; discriminate)).
Qed.

Lemma digitsOnly_noDollar ds : digitsOnly ds = true -> hasNoDollar ds = true.
Proof.
  induction ds as [|c ds IH]; cbn; [reflexivity|].
  intros H. apply andb_prop in H as [Hc Hds].
  now rewrite (digit_not_dollar _ Hc), IH.
Qed.

Lemma digitsOnly_uint d : digitsOnly (NilEmpty.string_of_uint d) = true.
Proof. induction d; cbn [NilEmpty.string_of_uint digitsOnly]; auto. Qed.

(** The decimal text of a number that is not negative is made of digits. *)
Lemma decimal_digits n :
  0 <= n -> digitsOnly (NilZero.string_of_int (Z.to_int n)) = true.
Proof.
  intros Hn. destruct n as [|p|p]; [reflexivity| |lia].
  cbn [Z.to_int NilZero.string_of_int]. unfold NilZero.string_of_uint.
  destruct (Pos.to_uint p); try reflexivity; apply digitsOnly_uint.
Qed.

Lemma digitsPrefix_app ds rest :
  digitsOnly ds = true -> startsWithDigit rest = false ->
  digitsPrefix (ds ++ rest) = ds.
Proof.
  intros Hds Hrest. induction ds as [|c ds IH]; cbn [String.append].
  - destruct rest as [|c rest]; [reflexivity|]. cbn in *. now rewrite Hrest.
  - cbn in Hds. apply andb_prop in Hds as [Hc Hds].
    cbn [digitsPrefix]. now rewrite Hc, IH.
Qed.

Lemma readNumber_decimal n rest :
  0 <= n -> startsWithDigit rest = false ->
  readNumber (NilZero.string_of_int (Z.to_int n) ++ rest) = Some n.
Proof.
  intros Hn Hrest. unfold readNumber.
  rewrite digitsPrefix_app by (try assumption; now apply decimal_digits).
  apply itoa_reads_back.
Qed.

Lemma scan_skip a b :
  hasNoDollar a = true -> placeholderNumbers (a ++ b) = placeholderNumbers b.
Proof.
  induction a as [|c a IH]; cbn [String.append hasNoDollar placeholderNumbers];
    [reflexivity|].
  intros H. apply andb_prop in H as [Hc Ha].
  apply negb_true_iff in Hc. rewrite Hc. now apply IH.
Qed.

(** Reading one placeholder: its number, then what follows it. *)
Lemma scan_placeholder n cast rest :
  0 <= n -> hasNoDollar cast = true -> startsWithDigit rest = false ->
  placeholderNumbers (specPlaceholder n cast ++ rest) =
  n :: placeholderNumbers rest.
Proof.
  intros Hn Hcast Hrest. unfold specPlaceholder.
  destruct cast as [|c cast].
  - cbn [String.append placeholderNumbers].
    change (isDollar "$") with true. cbv iota.
    rewrite readNumber_decimal by assumption.
    now rewrite scan_skip
      by (apply digitsOnly_noDollar; now apply decimal_digits).
  - cbn [String.append placeholderNumbers].
    change (isDollar "$") with true. cbv iota.
    rewrite string_app_assoc.
    rewrite readNumber_decimal by (try assumption; reflexivity).
    rewrite scan_skip
      by (apply digitsOnly_noDollar; now apply decimal_digits).
    rewrite scan_skip; [reflexivity|].
    cbn [hasNoDollar]. change (isDollar ":") with false. exact Hcast.
Qed.

(** Reading the columns of a group. *)
Lemma scan_tokens (toks : list (Z * string)) rest :
  Forall (fun nc => 0 <= fst nc /\ hasNoDollar (snd nc) = true) toks ->
  startsWithDigit rest = false ->
  placeholderNumbers
    (String.concat ", " (map (fun nc => specPlaceholder (fst nc) (snd nc)) toks)
     ++ rest) =
  map fst toks ++ placeholderNumbers rest.
Proof.
  intros Hall Hrest. induction Hall as [|[n cast] toks [Hn Hcast] Hall IH].
  - reflexivity.
  - cbn [fst snd] in *. destruct toks as [|tok toks].
    + cbn [map String.concat app]. now apply scan_placeholder.
    + change (String.concat ", " (map _ ((n, cast) :: tok :: toks)))
        with (specPlaceholder n cast ++ ", " ++
              String.concat ", "
                (map (fun nc => specPlaceholder (fst nc) (snd nc))
                     (tok :: toks)))%string.
      rewrite !string_app_assoc.
      rewrite scan_placeholder by (try assumption; reflexivity).
      cbn [map app fst]. f_equal.
      change (", " ++ ?x)%string with (String "," (String " " x)).
      cbn [String.append placeholderNumbers].
      change (isDollar ",") with false. change (isDollar " ") with false.
      cbv iota. exact IH.
Qed.

Lemma hasNoDollar_nth casts j :
  forallb hasNoDollar casts = true ->
  hasNoDollar (nth j casts EmptyString) = true.
Proof.
  revert j. induction casts as [|c casts IH]; intros [|j] H; cbn in *;
    try reflexivity; apply andb_prop in H as [Hc Hcs]; auto.
Qed.

(** Reading a group: the numbers of its row. *)
Lemma scan_group casts (i : nat) rest :
  forallb hasNoDollar casts = true ->
  placeholderNumbers (specGroup casts i ++ rest) =
  numsFrom (Z.of_nat i * Z.of_nat (length casts) + 1) (length casts)
  ++ placeholderNumbers rest.
Proof.
  intros Hcasts. unfold specGroup.
  set (C := Z.of_nat (length casts)).
  rewrite <- (map_map (fun j => (Z.of_nat i * C + Z.of_nat j + 1,
                                 nth j casts EmptyString))
                      (fun nc => specPlaceholder (fst nc) (snd nc))).
  cbn [String.append placeholderNumbers]. change (isDollar "(") with false.
  cbv iota. rewrite !string_app_assoc.
  rewrite scan_tokens.
  - rewrite map_map. cbn [fst String.append placeholderNumbers].
    change (isDollar ")") with false. cbv iota. f_equal.
    unfold numsFrom. apply map_ext. intros j. lia.
  - apply Forall_map, Forall_forall. intros j _. cbn [fst snd]. split.
    + subst C. lia.
    + now apply hasNoDollar_nth.
  - reflexivity.
Qed.

Lemma string_app_nil_r (a : string) : (a ++ EmptyString)%string = a.
Proof. induction a as [|x a IH]; cbn; [reflexivity | now rewrite IH]. Qed.

(** Reading a fragment: the numbers of its rows, one row after the
    other. *)
Lemma scan_groups casts :
  forallb hasNoDollar casts = true ->
  forall n a rest,
    placeholderNumbers
      (String.concat (String "," (String (ascii_of_nat 10) EmptyString))
                     (map (specGroup casts) (seq a n)) ++ rest) =
    concat (map (fun i => numsFrom (Z.of_nat i * Z.of_nat (length casts) + 1)
                                   (length casts))
                (seq a n))
    ++ placeholderNumbers rest.
Proof.
  intros Hcasts. induction n as [|n IH]; intros a rest; [reflexivity|].
  cbn [seq map concat]. destruct n as [|n].
  - cbn [seq map String.concat concat]. rewrite app_nil_r.
    now apply scan_group.
  - change (String.concat ?sep (specGroup casts a :: map ?f (seq (S a) (S n))))
      with (specGroup casts a ++ sep ++
            String.concat sep (map f (seq (S a) (S n))))%string.
    rewrite !string_app_assoc, scan_group by assumption.
    rewrite <- app_assoc. f_equal.
    cbn [String.append placeholderNumbers].
    change (isDollar ",") with false.
    change (isDollar (ascii_of_nat 10)) with false. cbv iota.
    apply IH.
Qed.

Lemma placeholderNumbers_specFragment casts count :
  forallb hasNoDollar casts = true ->
  placeholderNumbers (specFragment casts count) =
  map Z.of_nat (seq 1 (count * length casts)).
Proof.
  intros Hcasts. unfold specFragment.
  rewrite <- (string_app_nil_r (String.concat _ _)).
  rewrite scan_groups by assumption. cbn [placeholderNumbers].
  rewrite app_nil_r.
  change (concat _) with (concat (rowMajor (length casts) count)).
  now rewrite concat_rowMajor, numsFrom_seq.
Qed.

(** C5.  The fragment built for a batch of [count] rows is, character
    for character, one parenthesised group per row, the groups separated
    by comma and newline, in which row [i], column [j] is [$N] with
    [N = i*columns + j + 1] in decimal, followed by [::cast] when the
    cast of column [j] is not empty; and, no cast holding a [$] of its
    own, the parameter numbers read off the text are 1, 2, ...,
    [count*columns] in this order: none missing, none twice.  The text
    depends on the casts and on the batch's row count only, so every
    batch is numbered from 1. *)
Theorem valuePlaceholders_text (s : Insert) (count : Z) :
  1 <= len (Casts s) -> 0 <= count ->
  count * len (Casts s) <= max_int ->
  valuePlaceholders s count = specFragment (Casts s) (Z.to_nat count) /\
  (forallb hasNoDollar (Casts s) = true ->
   placeholderNumbers (valuePlaceholders s count) =
   map Z.of_nat (seq 1 (Z.to_nat count * length (Casts s)))).
Proof.
  intros HC Hcount Hmax.
  pose proof (valuePlaceholders_spec s count HC Hcount Hmax) as Htext.
  split; [exact Htext|].
  intros Hcasts. rewrite Htext.
  now apply placeholderNumbers_specFragment.
Qed.

End FragmentText.

(* ================================================================== *)
(** ** Where a failure falls *)

Section FailureSite.
Context `{D : Driver}.

Lemma firstn_S_nth {A} (l : list A) d : forall k,
  (k < length l)%nat -> firstn (S k) l = firstn k l ++ [nth k l d].
Proof.
  induction l as [|x l IH]; intros k Hk; cbn [length] in Hk; [lia|].
  destruct k as [|k]; [reflexivity|].
  cbn [firstn nth app]. f_equal. apply IH. lia.
Qed.

Lemma onlyClose_calls post :
  onlyClose post ->
  allArgs post = [] /\ preparedQueries post = [] /\
  countIf isExec post = 0%nat.
Proof.
  unfold countIf. induction 1 as [|ev post Hev _ IH]; [repeat split|].
  destruct ev as [q r|h args r|h]; try discriminate. exact IH.
Qed.

Lemma preparedQueries_length t :
  length (preparedQueries t) = countIf isPrepare t.
Proof.
  unfold countIf.
  induction t as [|[q r|h args r|h] t IH]; cbn; rewrite ?IH; reflexivity.
Qed.

(** A statement's stretch in which a prepare fails is that prepare. *)
Lemma Scope_failed_prepare seg pre query e post :
  Scope seg -> seg = pre ++ EvPrepare query (inr e) :: post ->
  pre = [] /\ post = [].
Proof.
  intros [q e' | q h uses Hu] Heq.
  - destruct pre as [|x pre]; [|destruct pre; discriminate].
    injection Heq as _ _ <-. split; reflexivity.
  - exfalso. destruct pre as [|x pre]; [discriminate|].
    injection Heq as _ Heq.
    assert (Hin : In (EvPrepare query (inr e)) (uses ++ [EvClose h]))
      by (rewrite Heq; apply in_elt).
    apply in_app_or in Hin as [Hin | [Hin | []]]; [|discriminate].
    rewrite Forall_forall in Hu.
    destruct (Hu _ Hin) as (args & r & Hev). discriminate.
Qed.

Lemma len_nth_map {A} (sl : list (list A)) k :
  len (nth k sl []) = nth k (map len sl) 0.
Proof. exact (eq_sym (map_nth len sl [] k)). Qed.

(** C6, as the code has it.  When a prepare or an execute fails, [Exec]
    returns that error, the first of the trace; after the failing call
    nothing is prepared or executed, statements are only closed; the
    executions before it are those of the batches 1..k-1 of the plan, in
    order, all successful, with k-1 below the number of batches; the
    failing call is the one of batch k: the execution on its rows, or the
    prepare of the statement for its size; and the result returned, which
    is the one left in the receiver, is the aggregate of the results of
    batches 1..k-1 on top of what the receiver held when [Exec] was
    called ([result{}] after [NewInsert]). *)
Theorem Exec_fails_fast_with_partial_result (fuel : nat) (s : Insert)
  (rows : list (list Value)) (w : World) (run : Run)
  (res : result_t) (e : Err) :
  len rows <= max_int ->
  Exec fuel s rows w = Some run ->
  out run = Returned res (Some e) ->
  exists p sl pre fev post,
    plan fuel (len (Casts s)) (len rows) = Some p /\
    planSlices rows p = Some sl /\
    trace (final run) = pre ++ fev :: post /\
    noFailure pre /\ failure fev = Some e /\ onlyClose post /\
    (length (okResults pre) < length sl)%nat /\
    countIf isExec pre = length (okResults pre) /\
    okArgs pre = map flatten (firstn (length (okResults pre)) sl) /\
    failsOn s (nth (length (okResults pre)) sl []) fev /\
    res = fold_left add (okResults pre) (result s) /\
    result (ins (final run)) = res.
Proof.
  intros Hmax Hrun Hout.
  destruct (Exec_shape _ _ _ _ _ Hmax Hrun)
    as (p & sl & res' & err & Hp & Hsl & Hout' & Hfield & Hshape & Hscopes).
  rewrite Hout in Hout'. injection Hout' as <- <-.
  destruct Hshape
    as (Hres & Hargs & Hlt & _ & pre & fev & post & Ht & Hf & Hnf & Hpost).
  destruct (Exec_calls _ _ _ _ _ _ _ Hrun Hp Hsl)
    as (_ & Hall & rest & Hq & Hrest & _).
  destruct (planSlices_spec rows fuel _ p Hmax Hp)
    as (sl' & Hsl' & _ & Hlens & _).
  rewrite Hsl in Hsl'. injection Hsl' as <-.
  destruct (onlyClose_calls post Hpost) as (Hpa & Hpq & Hpc).
  pose proof (noFailure_countExec pre Hnf) as Hk.
  rewrite Ht, okResults_app, (okResults_tail _ _ _ Hf Hpost), app_nil_r
    in Hres, Hlt.
  rewrite Ht, okResults_app, okArgs_app, (okResults_tail _ _ _ Hf Hpost),
    (okArgs_tail _ _ _ Hf Hpost), !app_nil_r in Hargs.
  exists p, sl, pre, fev, post. conj_easy.
  split; [|split; assumption].
  set (k := length (okResults pre)) in *.
  destruct fev as [query [h|e']|h args [r|e']|h]; try discriminate.
  - (* a prepare failed *)
    cbn [failsOn]. rewrite len_nth_map, Hlens.
    rewrite Ht, preparedQueries_app in Hq. cbn [preparedQueries] in Hq.
    rewrite Hpq in Hq.
    destruct p as [l | b bs l]; cbn [planQueries planSizes] in *.
    + destruct (Scope_failed_prepare _ _ _ _ _ Hscopes Ht) as [-> ->].
      subst k. cbn in Hq |- *. now injection Hq.
    + pose proof (len_nonneg rows) as HR.
      apply plan_split_inv in Hp as ([Hb _] & _); [|lia].
      destruct Hscopes as [(e0 & _ & Hscope & _)
                          | (seg1 & seg2 & Ht' & Hs1 & Hs2 & Hnf1 & Hc1 & _)].
      * destruct (Scope_failed_prepare _ _ _ _ _ Hscope Ht) as [-> ->].
        subst k. cbn in Hq |- *. injection Hq as -> _.
        destruct (Z.to_nat b) as [|n] eqn:En; [lia|]. reflexivity.
      * assert (Hsplit : pre = seg1 /\ seg2 = [EvPrepare query (inr e')]).
        { rewrite Ht' in Ht. apply app_eq_app in Ht as (l' & [[H1 H2] | [H1 H2]]).
          - destruct l' as [|x l'].
            + rewrite app_nil_r in H1. cbn in H2. subst seg1 seg2.
              destruct (Scope_failed_prepare _ [] _ _ _ Hs2 eq_refl) as [_ ->].
              split; reflexivity.
            + exfalso. injection H2 as <- _. subst seg1.
              apply Forall_app in Hnf1 as [_ Hbad].
              inversion Hbad as [|? ? Hx _]. discriminate.
          - destruct (Scope_failed_prepare _ _ _ _ _ Hs2 H2) as [-> ->].
            rewrite app_nil_r in H1. now split. }
        destruct Hsplit as [-> ->].
        assert (Hk1 : k = Z.to_nat b) by (subst k; now rewrite <- Hk).
        rewrite Hk1.
        rewrite app_nth2 by (rewrite repeat_length; lia).
        rewrite repeat_length, Nat.sub_diag. cbn [nth].
        pose proof (preparedQueries_length seg1) as Hpl.
        rewrite (Scope_prepares _ Hs1) in Hpl.
        destruct (preparedQueries seg1) as [|q1 [|q2 qs]]; try discriminate.
        cbn in Hq. now injection Hq.
  - (* an execution failed *)
    cbn [failsOn].
    rewrite Ht, allArgs_app, countIf_app in Hall. cbn [allArgs] in Hall.
    rewrite Hpa in Hall.
    change (EvExec h args (inr e') :: post)
      with ([EvExec h args (inr e')] ++ post) in Hall.
    rewrite countIf_app, Hpc, Hk in Hall.
    change (countIf isExec [EvExec h args (inr e')]) with 1%nat in Hall.
    fold k in Hall.
    replace (k + (1 + 0))%nat with (S k) in Hall by lia.
    rewrite (firstn_S_nth sl [] k Hlt), map_app in Hall. cbn [map] in Hall.
    now apply app_inj_tail in Hall as [_ ->].
Qed.

End FailureSite.

(* ================================================================== *)
(** ** Batches of a plan, with termination *)

Section PlanPartition.

(** X15.  With fewer than [MaxBindVars] columns the planning comes to
    an end within [len rows + 1] tests of the loop condition, and the
    batches of its plan are consecutive ranges of the rows, taken in
    input order: the row ranges [Exec] slices exist, put end to end they
    are the input rows, each one starts at the row where the ones before
    it end, their lengths are the planned sizes, and the planned sizes
    add up to the row count. *)
Theorem plan_partitions_rows_below_MaxBindVars {A : Type} (rows : list A)
  (columnCount : Z) :
  0 <= columnCount < MaxBindVars ->
  columnCount * len rows <= max_int ->
  len rows <= max_int ->
  exists p sl,
    plan (S (Z.to_nat (len rows))) columnCount (len rows) = Some p /\
    planSlices rows p = Some sl /\
    concat sl = rows /\
    (forall k, (k < length sl)%nat ->
       nth k sl [] =
       firstn (length (nth k sl []))
              (skipn (length (concat (firstn k sl))) rows)) /\
    map len sl = planSizes p /\
    sumZ (planSizes p) = len rows.
Proof.
  intros HC Hprod Hmax.
  destruct (plan_terminates columnCount (len rows) HC (len_nonneg rows)
              Hprod Hmax) as (p & Hp).
  destruct (planSlices_spec rows _ columnCount p Hmax Hp)
    as (sl & Hsl & Hcat & Hlens & Hsum).
  exists p, sl. conj_easy.
  split; [|split; assumption].
  intros k Hk. rewrite (concat_nth_range sl k Hk) at 1. now rewrite Hcat.
Qed.

Lemma plan_partitions_rows_below_MaxBindVars_witness :
  exists p sl,
    plan (S (Z.to_nat (len [10; 20; 30]%nat))) 30000 (len [10; 20; 30]%nat)
      = Some p /\
    planSlices [10; 20; 30]%nat p = Some sl /\
    concat sl = [10; 20; 30]%nat /\
    (forall k, (k < length sl)%nat ->
       nth k sl [] =
       firstn (length (nth k sl []))
              (skipn (length (concat (firstn k sl))) [10; 20; 30]%nat)) /\
    map len sl = planSizes p /\
    sumZ (planSizes p) = len [10; 20; 30]%nat.
Proof.
  apply (plan_partitions_rows_below_MaxBindVars [10; 20; 30]%nat 30000).
  - unfold MaxBindVars. lia.
  - vm_compute. discriminate.
  - vm_compute. discriminate.
Defined.

End PlanPartition.

(* ================================================================== *)
(** ** Runs on wide inputs and on literal texts *)

Section WideRuns.

(** Three rows of three columns, the second cast to [int], the third to
    [text]: the text, and the numbers read off it. *)
Lemma valuePlaceholders_text_witness :
  valuePlaceholders (D := okDriver)
    (NewInsert (D := okDriver) insertSQL [EmptyString; "int"; "text"]%string) 3 =
  "($1, $2::int, $3::text),
($4, $5::int, $6::text),
($7, $8::int, $9::text)"%string /\
  placeholderNumbers
    "($1, $2::int, $3::text),
($4, $5::int, $6::text),
($7, $8::int, $9::text)" = [1; 2; 3; 4; 5; 6; 7; 8; 9].
Proof.
  destruct (valuePlaceholders_text (D := okDriver)
              (NewInsert (D := okDriver) insertSQL
                         [EmptyString; "int"; "text"]%string) 3)
    as [Htext Hnums].
  - vm_compute. discriminate.
  - lia.
  - vm_compute. discriminate.
  - split; [exact Htext | exact (Hnums eq_refl)].
Defined.

(** Three rows of 43690 values are split into two regular batches and a
    last batch of one row each; every call succeeds. *)
Lemma Exec_statement_scopes_witness :
  plan 4 (len (Casts wideInsert)) (len wideRows) = Some (Split 2 1 1) /\
  match Exec (D := okDriver) 4 wideInsert
             wideRows 0%nat with
  | None => False
  | Some run =>
    exists p res err,
      plan 4 (len (Casts wideInsert)) (len wideRows) = Some p /\
      out run = Returned res err /\
      (err = None ->
       countIf isExec (trace (final run)) = length (planSizes p)) /\
      (countIf isExec (trace (final run)) <= length (planSizes p))%nat /\
      match p with
      | NoSplit _ =>
          Scope (trace (final run)) /\
          countIf isPrepare (trace (final run)) = 1%nat
      | Split batches _ _ =>
          (err <> None /\ Scope (trace (final run)) /\
           countIf isPrepare (trace (final run)) = 1%nat /\
           (countIf isExec (trace (final run)) <= Z.to_nat batches)%nat) \/
          (exists seg1 seg2,
              trace (final run) = seg1 ++ seg2 /\ Scope seg1 /\ Scope seg2 /\
              countIf isExec seg1 = Z.to_nat batches /\
              (countIf isExec seg2 <= 1)%nat /\
              countIf isPrepare (trace (final run)) = 2%nat)
      end
  end.
Proof.
  assert (Hp : plan 4 (len (Casts wideInsert)) (len wideRows) = Some (Split 2 1 1))
    by (vm_compute; reflexivity).
  split; [exact Hp|].
  destruct (Exec (D := okDriver) 4
              wideInsert wideRows 0%nat)
    as [run|] eqn:Hrun.
  - apply (Exec_statement_scopes (D := okDriver) 4
             wideInsert wideRows 0%nat).
    + vm_compute. discriminate.
    + exact Hrun.
  - destruct (Exec_returns (D := okDriver) 4
                wideInsert wideRows 0%nat
                _ Hp) as (run & Hrun').
    rewrite Hrun' in Hrun. discriminate Hrun.
Defined.

(** The same three rows on a store whose fifth prepare or execute
    fails: the
    statement of the regular batches is prepared, executed twice and
    closed, the statement of the last batch is prepared, and its
    execution, the one of batch 3, fails; the result returned with the
    error reports the two rows of batches 1 and 2. *)
Lemma Exec_fails_fast_with_partial_result_witness :
  plan 4 (len (Casts (wideInsertAt 4))) (len wideRows) = Some (Split 2 1 1) /\
  match Exec (D := failAtRowEach 4) 4
             (wideInsertAt 4)
             wideRows 0%nat with
  | None => False
  | Some run =>
    match out run with
    | Returned res (Some e) =>
      rowsAffected res = 2 /\
      exists p sl pre fev post,
        plan 4 (len (Casts (wideInsertAt 4))) (len wideRows) = Some p /\
        planSlices wideRows p = Some sl /\
        trace (final run) = pre ++ fev :: post /\
        noFailure pre /\ failure fev = Some e /\ onlyClose post /\
        (length (okResults pre) < length sl)%nat /\
        countIf isExec pre = length (okResults pre) /\
        okArgs pre =
          map (flatten (D := failAtRowEach 4))
              (firstn (length (okResults pre)) sl) /\
        failsOn (wideInsertAt 4)
                (nth (length (okResults pre)) sl []) fev /\
        res = fold_left (add (H := failAtRowEach 4)) (okResults pre)
                        result_zero /\
        result (ins (final run)) = res
    | _ => False
    end
  end.
Proof.
  split; [vm_compute; reflexivity|].
  assert (Hsum :
    option_map
      (fun run => match out run with
                  | Returned res (Some _) => Some (rowsAffected res)
                  | _ => None
                  end)
      (Exec (D := failAtRowEach 4) 4
            (wideInsertAt 4)
            wideRows 0%nat) = Some (Some 2))
    by (lazy; reflexivity).
  destruct (Exec (D := failAtRowEach 4) 4
              (wideInsertAt 4)
              wideRows 0%nat) as [run|] eqn:Hrun; [|discriminate Hsum].
  cbn [option_map] in Hsum.
  destruct (out run) as [res [e|]|] eqn:Hout; try discriminate Hsum.
  split; [now injection Hsum|].
  apply (Exec_fails_fast_with_partial_result (D := failAtRowEach 4) 4
           (wideInsertAt 4)
           wideRows 0%nat run res e).
  - vm_compute. discriminate.
  - exact Hrun.
  - exact Hout.
Defined.

(** C6, as the spec has it, fails on an [Insert] that has executed
    before: the first call inserts two rows, the prepare of the second
    call fails at its batch 1, and the result returned with the error
    reports the two rows of the first call, where the aggregate of the
    batches of the call that failed is empty. *)
Lemma Exec_failure_result_includes_earlier_calls :
  match Exec (D := failAt 2) 1
             (NewInsert (D := failAt 2) insertSQL [EmptyString])
             twoRows 0%nat with
  | Some run1 =>
      match Exec (D := failAt 2) 1 (ins (final run1)) twoRows
                 (world (final run1)) with
      | Some run2 =>
          out run1 = Returned (D := failAt 2) (mkResult 1 2) None /\
          out run2 = Returned (D := failAt 2) (mkResult 1 2) (Some 2%nat) /\
          okResults (trace (final run2)) = [] /\
          mkResult 1 2 <>
            fold_left (add (H := failAt 2)) (okResults (trace (final run2)))
                      result_zero
      | None => False
      end
  | None => False
  end.
Proof.
  vm_compute. repeat split; discriminate.
Qed.

(** C1.  Two rows of 65535 values could go out as two batches of one
    row; the planning of them never produces a plan, so there are no
    batches at all: [batches] is 2, [batchSize] is 2/3 = 0, [leftovers]
    is 2, and the loop subtracts 0 from it for ever. *)
Theorem plan_no_batches_for_two_wide_rows :
  forall fuel,
    plan fuel (len (repeat EmptyString (Z.to_nat 65535))) (len twoWideRows)
      = None /\
    Exec (D := okDriver) fuel
         (NewInsert (D := okDriver) insertSQL
                    (repeat EmptyString (Z.to_nat 65535)))
         twoWideRows 0%nat = None.
Proof.
  intros fuel.
  assert (HC : MaxBindVars <= len (repeat EmptyString (Z.to_nat 65535)))
    by (unfold len; rewrite repeat_length; vm_compute; discriminate).
  assert (HR : 1 <= len twoWideRows) by (vm_compute; discriminate).
  assert (Hprod : len (repeat EmptyString (Z.to_nat 65535)) * len twoWideRows
                  <= max_int)
    by (unfold len at 1; rewrite repeat_length; vm_compute; discriminate).
  split.
  - exact (plan_diverges _ _ HC HR Hprod fuel).
  - apply (Exec_never_returns (D := okDriver)
             (NewInsert (D := okDriver) insertSQL
                        (repeat EmptyString (Z.to_nat 65535)))
             twoWideRows);
      unfold NewInsert; cbv beta iota delta [Casts]; assumption.
Qed.

End WideRuns.
